(** * Russell 2000 ticker updater: a shallow embedding of
      [update_russell2000.py] and the properties of its validator, JSON walk,
      source strategies and orchestrator. *)

From Stdlib Require Import String Ascii.
From Stdlib Require Import List NArith ZArith Bool Lia.
From Stdlib Require Import Sorting.Sorted Permutation.
Import ListNotations.

Set Implicit Arguments.

(** ** Python strings

    A Python [str] is a sequence of Unicode code points.  Code points are
    numbers, strings are lists of them, and comparison of strings is the
    lexicographic order on code points. *)

Definition codepoint := N.
Definition str := list codepoint.

(** The content of a file: bytes, as numbers below 256. *)
Definition bytes := list N.

Definition lit (s : string) : str := map N_of_ascii (list_ascii_of_string s).
Arguments lit s%_string.

Definition str_eqb (a b : str) : bool :=
  if list_eq_dec N.eq_dec a b then true else false.

Local Open Scope N_scope.

Definition in_range (lo hi c : codepoint) : bool := (lo <=? c) && (c <=? hi).

(** [str.isspace] on one code point: the complete table of CPython's
    [_PyUnicode_IsWhitespace]. *)
Definition cp_isspace (c : codepoint) : bool :=
  in_range 9 13 c || in_range 28 32 c || (c =? 133) || (c =? 160)
  || (c =? 5760) || in_range 8192 8202 c || (c =? 8232) || (c =? 8233)
  || (c =? 8239) || (c =? 8287) || (c =? 12288).

(** Line boundaries of [str.splitlines]. *)
Definition cp_islinebreak (c : codepoint) : bool :=
  in_range 10 13 c || in_range 28 30 c || (c =? 133)
  || (c =? 8232) || (c =? 8233).

(** The letter and case classes of the Unicode character database, which
    [str.isalpha], [str.isupper] and [str.upper] consult.  The program only
    goes through these five lookups, so the database is an interface. *)
Class CaseData := {
  cp_isalpha : codepoint -> bool;
  cp_isupper : codepoint -> bool;
  cp_islower : codepoint -> bool;
  cp_istitle : codepoint -> bool;
  cp_upper : codepoint -> list codepoint
}.

(** The database restricted to two blocks: Basic Latin (U+0000..U+007F) and
    the CJK Unified Ideographs U+4E00..U+9FA5, which are letters without case
    (category Lo).  Code points of other blocks carry no class here. *)
Definition is_cjk (c : codepoint) : bool := in_range 19968 40869 c.

Definition ucd_tables : CaseData := {|
  cp_isalpha := fun c => in_range 65 90 c || in_range 97 122 c || is_cjk c;
  cp_isupper := fun c => in_range 65 90 c;
  cp_islower := fun c => in_range 97 122 c;
  cp_istitle := fun _ => false;
  cp_upper := fun c => if in_range 97 122 c then [c - 32] else [c]
|}.

Local Close Scope N_scope.

Section StrMethods.
Context {ucd : CaseData}.

(** [s.strip()] *)
Fixpoint lstrip (s : str) : str :=
  match s with
  | c :: r => if cp_isspace c then lstrip r else s
  | [] => []
  end.

Definition rstrip (s : str) : str := rev (lstrip (rev s)).

Definition strip (s : str) : str := rstrip (lstrip s).

(** [s.replace("-", "")] *)
Definition hyphen : codepoint := 45%N.

Definition remove_hyphens (s : str) : str :=
  filter (fun c => negb (c =? hyphen)%N) s.

(** [s.isalpha()]: every character is a letter and there is at least one. *)
Definition isalpha (s : str) : bool :=
  match s with [] => false | _ => forallb cp_isalpha s end.

(** [s.isupper()]: no lowercase or titlecase character, and at least one
    uppercase one. *)
Definition isupper (s : str) : bool :=
  forallb (fun c => negb (cp_islower c || cp_istitle c)) s
  && existsb cp_isupper s.

(** [s.upper()] *)
Definition upper (s : str) : str := flat_map cp_upper s.

(** ** The validator *)

Definition is_valid_ticker (t : str) : bool :=
  let t := strip t in
  match t with
  | [] => false
  | _ =>
    let clean := remove_hyphens t in
    (1 <=? length clean) && (length clean <=? 5)
    && isalpha clean && isupper clean
  end.

(** The validator as the specification words it: the cleaned string
    "equals its own uppercase form". *)
Definition valid_as_specified (s : str) : Prop :=
  let clean := remove_hyphens (strip s) in
  1 <= length clean <= 5
  /\ Forall (fun c => cp_isalpha c = true) clean
  /\ upper clean = clean.

(** The validator as the code decides it. *)
Definition valid_shape (s : str) : Prop :=
  let clean := remove_hyphens (strip s) in
  1 <= length clean <= 5
  /\ Forall (fun c => cp_isalpha c = true) clean
  /\ Forall (fun c => cp_islower c = false /\ cp_istitle c = false) clean
  /\ Exists (fun c => cp_isupper c = true) clean.

End StrMethods.

Definition is_ascii (s : str) : Prop := Forall (fun c => (c < 128)%N) s.

Definition all_space (s : str) : Prop :=
  Forall (fun c => cp_isspace c = true) s.

(** Comparison of strings, [a <= b]: lexicographic on code points. *)
Fixpoint str_leb (a b : str) : bool :=
  match a, b with
  | [], _ => true
  | _ :: _, [] => false
  | x :: a', y :: b' =>
    if (x <? y)%N then true else if (x =? y)%N then str_leb a' b' else false
  end.

Definition str_le (a b : str) : Prop := str_leb a b = true.
Definition str_lt (a b : str) : Prop := str_leb a b = true /\ a <> b.

Definition mem (x : str) (l : list str) : bool := existsb (str_eqb x) l.

(** [list(dict.fromkeys(l))]: the keys in order of first insertion. *)
Fixpoint fromkeys_from (seen l : list str) : list str :=
  match l with
  | [] => []
  | x :: r =>
    if mem x seen then fromkeys_from seen r
    else x :: fromkeys_from (x :: seen) r
  end.

Definition dict_fromkeys (l : list str) : list str := fromkeys_from [] l.

(** [sorted(l)] *)
Fixpoint insert_sorted (x : str) (l : list str) : list str :=
  match l with
  | [] => [x]
  | y :: r => if str_leb x y then x :: l else y :: insert_sorted x r
  end.

Definition sorted (l : list str) : list str := fold_right insert_sorted [] l.

(** [sep.join(l)] *)
Fixpoint join (sep : str) (l : list str) : str :=
  match l with
  | [] => []
  | x :: r => match r with [] => x | _ => x ++ sep ++ join sep r end
  end.

(** [s.splitlines()] *)
Fixpoint splitlines_from (cur s : str) : list str :=
  match s with
  | [] => match cur with [] => [] | _ => [rev cur] end
  | c :: r =>
    if cp_islinebreak c then
      match r with
      | d :: r' =>
        if ((c =? 13) && (d =? 10))%N then rev cur :: splitlines_from [] r'
        else rev cur :: splitlines_from [] r
      | [] => [rev cur]
      end
    else splitlines_from (c :: cur) r
  end.

Definition splitlines (s : str) : list str := splitlines_from [] s.

(** [range(lo, hi)] *)
Definition py_range (lo hi : Z) : list Z :=
  map (fun i => (lo + Z.of_nat i)%Z) (seq 0 (Z.to_nat (hi - lo))).

(** ** Parsed JSON

    The value [json.loads] returns: a [dict] keeps its keys in insertion
    order, which is the order [values()] walks them in. *)

#[local] Unset Elimination Schemes.
Inductive json : Type :=
| JNull
| JBool (b : bool)
| JInt (z : Z)
| JFloat (mantissa exponent : Z)
| JStr (s : str)
| JList (items : list json)
| JDict (kvs : list (str * json)).
#[local] Set Elimination Schemes.

(** [obj[key]] guarded by [key in obj] *)
Fixpoint dict_get (key : str) (kvs : list (str * json)) : option json :=
  match kvs with
  | [] => None
  | (k, v) :: r => if str_eqb key k then Some v else dict_get key r
  end.

Definition candidate_keys : list str :=
  [lit "s"; lit "symbol"; lit "ticker"; lit "Symbol"; lit "Ticker"].

Definition MAX_DEPTH : Z := 10.

(** How many containers are nested in a value, itself included. *)
Fixpoint json_depth (obj : json) : Z :=
  match obj with
  | JList items =>
    1 + fold_right (fun item acc => Z.max (json_depth item) acc) 0%Z items
  | JDict kvs =>
    1 + fold_right
          (fun kv acc => match kv with (_, val) => Z.max (json_depth val) acc end)
          0%Z kvs
  | _ => 0
  end.

(** ** Exceptions

    A call either returns or raises; [try ... except Exception] turns a
    raised exception into the handler's value. *)

Inductive exn : Type :=
| HTTPError | ConnectionError | ReadTimeout | JSONDecodeError | ValueError
| UnicodeDecodeError | UnicodeEncodeError | OtherException.

Inductive result (A : Type) : Type :=
| Ok (a : A)
| Raised (e : exn).
Arguments Ok {A} a.
Arguments Raised {A} e.

Definition bind {A B : Type} (m : result A) (k : A -> result B) : result B :=
  match m with Ok a => k a | Raised e => Raised e end.

Notation "x <- m ;; k" := (bind m (fun x => k))
  (at level 61, m at next level, right associativity).

Definition try_except {A : Type} (m : result A) (handler : exn -> A) : A :=
  match m with Ok a => a | Raised e => handler e end.

(** [data.encode("utf-8")]: a surrogate (and a number that is no code
    point) cannot be encoded. *)
Definition utf8_encode_char (c : codepoint) : result bytes :=
  if (c <? 128)%N then Ok [c]
  else if (c <? 2048)%N then Ok [192 + c / 64; 128 + c mod 64]%N
  else if in_range 55296%N 57343%N c then Raised UnicodeEncodeError
  else if (c <? 65536)%N then
    Ok [224 + c / 4096; 128 + (c / 64) mod 64; 128 + c mod 64]%N
  else if (c <? 1114112)%N then
    Ok [240 + c / 262144; 128 + (c / 4096) mod 64;
        128 + (c / 64) mod 64; 128 + c mod 64]%N
  else Raised UnicodeEncodeError.

Fixpoint utf8_encode (s : str) : result bytes :=
  match s with
  | [] => Ok []
  | c :: r =>
    head <- utf8_encode_char c ;;
    rest <- utf8_encode r ;;
    Ok (head ++ rest)
  end.

(** The ASCII codec. *)
Definition ascii_decode (content : bytes) : result str :=
  if forallb (fun b => (b <? 128)%N) content then Ok content
  else Raised UnicodeDecodeError.

(** Reading in text mode: a carriage return, with the line feed after it
    if there is one, is read as one line feed. *)
Fixpoint universal_newlines (s : str) : str :=
  match s with
  | [] => []
  | c :: r =>
    if (c =? 13)%N then
      match r with
      | d :: r' =>
        if (d =? 10)%N then 10%N :: universal_newlines r'
        else 10%N :: universal_newlines r
      | [] => [10%N]
      end
    else c :: universal_newlines r
  end.

(** ** The outside world

    What the program sees of the network and of the libraries it calls:
    the response to a GET, the embedded script block the regular expression
    finds, the parsed JSON and the anchors of the parsed HTML.  The same URL
    gets the same response within a run. *)

Inductive url : Type :=
| StockanalysisList
| FinvizScreener (r : Z).

Record response : Type := {
  status_ok : bool;
  text : str
}.

(** The parts of a parsed document the program asks for. *)
Record soup : Type := {
  (** [a.text] for [a] in [find_all("a", href=re.compile(r"^/stocks/"))] *)
  stocks_anchor_texts : list str;
  (** [el.text] for [el] in [find_all(["td", "div", "span"])] *)
  cell_texts : list str;
  (** [a.text] for [a] in [find_all("a", {"class": "screener-link-primary"})] *)
  primary_link_texts : list str;
  (** [a["href"]] for [a] in
      [find_all("a", href=re.compile(r"quote\.ashx\?t="))] *)
  quote_hrefs : list str
}.

Class World := {
  requests_get : url -> result response;
  (** group 1 of the search for the [__NEXT_DATA__] script block *)
  search_next_data : str -> option str;
  json_loads : str -> result json;
  BeautifulSoup : str -> result soup;
  (** The search of [(\d[\d,]+)\s*stocks] in a text: [None] without a
      match, else [int(m.group(1).replace(",", ""))], which raises
      [ValueError] on a number of too many digits. *)
  search_stock_count : str -> option (result Z);
  (** The bytes of a file decoded in the locale's encoding, as
      [read_text()] without an encoding does. *)
  locale_decode : bytes -> result str
}.

Definition raise_for_status (resp : response) : result unit :=
  if status_ok resp then Ok tt else Raised HTTPError.

(** [re.search(r"t=([A-Z]+)", href)]: group 1 of the leftmost match. *)
Fixpoint take_upper_run (s : str) : str :=
  match s with
  | c :: r => if in_range 65%N 90%N c then c :: take_upper_run r else []
  | [] => []
  end.

(** The capitals [A-Z] of the pattern. *)
Definition is_capital (c : codepoint) : Prop := in_range 65%N 90%N c = true.

Fixpoint search_t_param (s : str) : option str :=
  match s with
  | [] => None
  | c :: r =>
    let here :=
      match r with
      | e :: r' =>
        if ((c =? 116) && (e =? 61))%N then
          match take_upper_run r' with [] => None | g => Some g end
        else None
      | [] => None
      end in
    match here with Some g => Some g | None => search_t_param r end
  end.

(** The file at [OUTPUT_FILE]. *)
Inductive file_state : Type :=
| NoFile
| File (content : bytes).

(** How a run of [main] ends: in one of its three branches, or with the
    exception that reading or writing the file raised. *)
Inductive outcome : Type :=
| Preserved (existing : list str)
| TotalFailure
| Written (content : bytes)
| ReadRaised (e : exn)
| WriteRaised (e : exn).

Definition THRESHOLD : nat := 500.

(** ** The program

    The functions of [update_russell2000.py], in its order.  Console output
    and the pauses between requests leave no trace in the values returned
    and are left out.  The platform's line separator is the line feed, so
    that text mode writes a text as it is. *)

Section Program.
Context {ucd : CaseData} {world : World}.

(** The candidate keys present in one object, in the order the loop tries
    them. *)
Definition key_matches (kvs : list (str * json)) : list str :=
  flat_map
    (fun key =>
       match dict_get key kvs with
       | Some (JStr val) => if is_valid_ticker val then [upper val] else []
       | _ => []
       end)
    candidate_keys.

(** A candidate key counts when it is present with a valid string value. *)
Definition key_counts (kvs : list (str * json)) (key : str) : bool :=
  match dict_get key kvs with
  | Some (JStr val) => is_valid_ticker val
  | _ => false
  end.

Fixpoint _extract_tickers_from_json (obj : json) (depth : Z) {struct obj}
  : list str :=
  if (depth >? MAX_DEPTH)%Z then []
  else
    match obj with
    | JDict kvs =>
      key_matches kvs
      ++ flat_map
           (fun kv =>
              match kv with
              | (_, val) => _extract_tickers_from_json val (depth + 1)
              end)
           kvs
    | JList items =>
      flat_map (fun item => _extract_tickers_from_json item (depth + 1)) items
    | _ => []
    end.

(** The same walk on a call stack of [frames] frames: [None] when a call
    finds no frame left. *)
Fixpoint collect_calls {A : Type} (call : A -> option (list str))
         (l : list A) : option (list str) :=
  match l with
  | [] => Some []
  | x :: r =>
    match call x, collect_calls call r with
    | Some a, Some b => Some (a ++ b)
    | _, _ => None
    end
  end.

Fixpoint extract_on_stack (frames : nat) (obj : json) (depth : Z)
  : option (list str) :=
  match frames with
  | O => None
  | S frames =>
    if (depth >? MAX_DEPTH)%Z then Some []
    else
      match obj with
      | JDict kvs =>
        match collect_calls
                (fun kv : str * json =>
                   extract_on_stack frames (snd kv) (depth + 1)) kvs with
        | Some below => Some (key_matches kvs ++ below)
        | None => None
        end
      | JList items =>
        collect_calls (fun item => extract_on_stack frames item (depth + 1))
                      items
      | _ => Some []
      end
  end.

(** Text of an anchor, as both scrapers normalise it before validating:
    [a.text.strip().upper()] kept when valid. *)
Definition keep_valid_upper (texts : list str) : list str :=
  flat_map
    (fun a_text =>
       let symbol := upper (strip a_text) in
       if is_valid_ticker symbol then [symbol] else [])
    texts.

(** The embedded-JSON path: the walked list when it has more than 500
    entries. *)
Definition stockanalysis_json (resp : response) : result (option (list str)) :=
  match search_next_data (text resp) with
  | Some payload =>
    data <- json_loads payload ;;
    let tickers := _extract_tickers_from_json data 0 in
    Ok (if THRESHOLD <? length tickers then Some tickers else None)
  | None => Ok None
  end.

(** The anchor path: the deduplicated symbols when there are more than
    500, nothing otherwise. *)
Definition stockanalysis_html (resp : response) : result (list str) :=
  page <- BeautifulSoup (text resp) ;;
  let tickers := dict_fromkeys (keep_valid_upper (stocks_anchor_texts page)) in
  if THRESHOLD <? length tickers then Ok tickers else Ok [].

Definition stockanalysis_try : result (list str) :=
  resp <- requests_get StockanalysisList ;;
  _ <- raise_for_status resp ;;
  from_json <- stockanalysis_json resp ;;
  match from_json with
  | Some tickers => Ok tickers
  | None => stockanalysis_html resp
  end.

Definition fetch_from_stockanalysis : list str :=
  try_except stockanalysis_try (fun _ => []).

Definition _parse_finviz_page (page : soup) : list str :=
  let tickers := keep_valid_upper (primary_link_texts page) in
  match tickers with
  | _ :: _ => tickers
  | [] =>
    dict_fromkeys
      (flat_map
         (fun href =>
            match search_t_param href with
            | Some m => if is_valid_ticker m then [m] else []
            | None => []
            end)
         (quote_hrefs page))
  end.

(** The scan for the total row count on page 1: the first element that
    carries one decides, and its number may fail to convert; 2000 when no
    element carries one. *)
Fixpoint first_stock_count (texts : list str) : option (result Z) :=
  match texts with
  | [] => None
  | el_text :: r =>
    match search_stock_count el_text with
    | Some found => Some found
    | None => first_stock_count r
    end
  end.

Definition total_of (page : soup) : result Z :=
  match first_stock_count (cell_texts page) with
  | Some found => found
  | None => Ok 2000%Z
  end.

Definition finviz_get (r_start : Z) : result soup :=
  resp <- requests_get (FinvizScreener r_start) ;;
  _ <- raise_for_status resp ;;
  BeautifulSoup (text resp).

(** One page of the screener, fetched and parsed. *)
Definition finviz_page_tickers (r_start : Z) : result (list str) :=
  page <- finviz_get r_start ;; Ok (_parse_finviz_page page).

Definition r_start_of (page_num rows_per_page : Z) : Z :=
  ((page_num - 1) * rows_per_page + 1)%Z.

(** The loop over pages 2 and up.  [requested] records the row offsets
    asked of the screener, in order.  A page that raises is skipped, a page
    without symbols ends the loop. *)
Fixpoint finviz_pages (pages : list Z) (rows_per_page : Z)
         (tickers : list str) (requested : list Z) : list str * list Z :=
  match pages with
  | [] => (tickers, requested)
  | page_num :: rest =>
    let r_start := r_start_of page_num rows_per_page in
    let requested := requested ++ [r_start] in
    match finviz_page_tickers r_start with
    | Raised _ => finviz_pages rest rows_per_page tickers requested
    | Ok [] => (tickers, requested)
    | Ok page_tickers =>
      finviz_pages rest rows_per_page (tickers ++ page_tickers) requested
    end
  end.

(** What page [page_num] adds to [tickers]: nothing when it raises. *)
Definition symbols_of_page (rows_per_page page_num : Z) : list str :=
  try_except (finviz_page_tickers (r_start_of page_num rows_per_page))
             (fun _ => []).

Definition MAX_PAGES : Z := 110.

Definition max_page_of (total rows_per_page : Z) : Z :=
  Z.min ((total - 1) / rows_per_page + 1) MAX_PAGES.

(** [fetch_from_finviz] with the offsets it requested. *)
Definition finviz_run : list str * list Z :=
  match finviz_get 1 with
  | Raised _ => ([], [1%Z])
  | Ok page =>
    match total_of page with
    | Raised _ => ([], [1%Z])
    | Ok total =>
      let page_tickers := _parse_finviz_page page in
      match page_tickers with
      | [] => ([], [1%Z])
      | _ :: _ =>
        let rows_per_page := Z.of_nat (length page_tickers) in
        let max_page := max_page_of total rows_per_page in
        let '(tickers, requested) :=
          finviz_pages (py_range 2 (max_page + 1)) rows_per_page
                       page_tickers [1%Z] in
        let tickers := dict_fromkeys tickers in
        if THRESHOLD <? length tickers then (tickers, requested)
        else ([], requested)
      end
    end
  end.

Definition fetch_from_finviz : list str := fst finviz_run.

(** The lines of a text that are tickers, stripped. *)
Definition valid_lines (file_content : str) : list str :=
  flat_map
    (fun t =>
       match strip t with
       | [] => []
       | stripped => if is_valid_ticker stripped then [stripped] else []
       end)
    (splitlines file_content).

(** [read_text()] decodes in the locale's encoding and may raise; nothing
    in [load_existing] catches that. *)
Definition read_text (content : bytes) : result str :=
  decoded <- locale_decode content ;; Ok (universal_newlines decoded).

Definition load_existing (fs : file_state) : result (list str) :=
  match fs with
  | NoFile => Ok []
  | File content =>
    file_content <- read_text content ;; Ok (valid_lines file_content)
  end.

Definition exclude : list str :=
  [lit "SPY"; lit "QQQ"; lit "IWM"; lit "DIA"; lit "RSP"; lit "GLD";
   lit "SLV"; lit "TLT"; lit "HYG"; lit "VXX"; lit "IEMG"; lit "EFA";
   lit "AGG"; lit "BND"; lit "VEA"; lit "VWO"; lit "IEFA"; lit "ITOT";
   lit "IVV"; lit "VOO"].

(** [set(...)]: the distinct elements.  The order a set is walked in is
    not fixed by Python; [sorted] of it does not depend on that order (see
    [finalize_any_order] below). *)
Definition py_set (l : list str) : list str := dict_fromkeys l.

(** [sorted(set(t for t in tickers if is_valid_ticker(t) and t not in exclude))] *)
Definition finalize (tickers : list str) : list str :=
  sorted
    (py_set
       (filter (fun t => is_valid_ticker t && negb (mem t exclude)) tickers)).

Definition newline : str := [10%N].

(** The text [main] writes: the joined lines and a final newline. *)
Definition file_text (tickers : list str) : str :=
  join newline tickers ++ newline.

(** The list the live sources leave in [tickers]: source 2 is asked only
    when source 1 gave fewer than 500 symbols. *)
Definition live_tickers : list str :=
  let tickers := fetch_from_stockanalysis in
  if length tickers <? THRESHOLD then fetch_from_finviz else tickers.

(** [OUTPUT_FILE.write_text(data, encoding="utf-8")] *)
Definition write_text (data : str) : outcome :=
  match utf8_encode data with
  | Ok content => Written content
  | Raised e => WriteRaised e
  end.

Definition main_outcome (fs : file_state) : outcome :=
  let tickers := live_tickers in
  match (if length tickers <? THRESHOLD then load_existing fs else Ok []) with
  | Raised e => ReadRaised e
  | Ok ((_ :: _) as existing) => Preserved existing
  | Ok [] =>
    match tickers with
    | [] => TotalFailure
    | _ :: _ => write_text (file_text (finalize tickers))
    end
  end.

(** The file after a run.  [write_text] opens the file for writing, which
    empties it, before it encodes the text. *)
Definition main (fs : file_state) : file_state :=
  match main_outcome fs with
  | Written content => File content
  | WriteRaised _ => File []
  | Preserved _ | TotalFailure | ReadRaised _ => fs
  end.

End Program.

(** ** Inputs of the worked examples *)

(** U+4E2D, a letter without case. *)
Definition cjk_letter : str := [20013%N].

(** [{"data": [{"symbol": "ABCD"}, {"ticker": "wxyz"}]}] *)
Definition nested_example : json :=
  JDict [(lit "data",
          JList [JDict [(lit "symbol", JStr (lit "ABCD"))];
                 JDict [(lit "ticker", JStr (lit "wxyz"))]])].

(** [inner] under [n] objects. *)
Fixpoint nest (n : nat) (inner : json) : json :=
  match n with
  | O => inner
  | S n => JDict [(lit "next", nest n inner)]
  end.

Definition symbol_leaf : json := JDict [(lit "symbol", JStr (lit "AAPL"))].

(** [{"s": "AAPL", "symbol": "AAPL", "ticker": "MSFT"}] *)
Definition multi_key_object : list (str * json) :=
  [(lit "s", JStr (lit "AAPL")); (lit "symbol", JStr (lit "AAPL"));
   (lit "ticker", JStr (lit "MSFT"))].

Definition empty_soup : soup :=
  {| stocks_anchor_texts := []; cell_texts := [];
     primary_link_texts := []; quote_hrefs := [] |}.

Fixpoint str_assoc {A : Type} (key : str) (l : list (str * A)) : option A :=
  match l with
  | [] => None
  | (k, a) :: r => if str_eqb key k then Some a else str_assoc key r
  end.

(** The world of an example: the body served at each URL, and what the
    libraries make of the texts that occur in it.  The locale is ASCII. *)
Definition example_world (served : url -> result str)
           (script_blocks : list (str * str))
           (json_texts : list (str * json))
           (html_pages : list (str * soup))
           (counted_cells : list (str * result Z)) : World :=
  {| requests_get := fun u =>
       body <- served u ;; Ok {| status_ok := true; text := body |};
     search_next_data := fun page_text => str_assoc page_text script_blocks;
     json_loads := fun payload =>
       match str_assoc payload json_texts with
       | Some data => Ok data
       | None => Raised JSONDecodeError
       end;
     BeautifulSoup := fun page_text =>
       match str_assoc page_text html_pages with
       | Some page => Ok page
       | None => Ok empty_soup
       end;
     search_stock_count := fun el_text => str_assoc el_text counted_cells;
     locale_decode := ascii_decode |}.

Definition served_page (body : str) : response :=
  {| status_ok := true; text := body |}.

(** The double quote. *)
Definition dq : str := [34%N].

(** [<script id="__NEXT_DATA__" type="application/json">payload</script>] *)
Definition next_data_script (payload : str) : str :=
  lit "<script id=" ++ dq ++ lit "__NEXT_DATA__" ++ dq
  ++ lit " type=" ++ dq ++ lit "application/json" ++ dq ++ lit ">"
  ++ payload ++ lit "</script>".

(** [{"s":"t"}] *)
Definition symbol_object (t : str) : str :=
  lit "{" ++ dq ++ lit "s" ++ dq ++ lit ":" ++ dq ++ t ++ dq ++ lit "}".

(** [<a href="/stocks/t/">t</a>] *)
Definition stocks_anchor (t : str) : str :=
  lit "<a href=" ++ dq ++ lit "/stocks/" ++ t ++ lit "/" ++ dq ++ lit ">"
  ++ t ++ lit "</a>".

(** [<a class="screener-link-primary">t</a>] *)
Definition primary_anchor (t : string) : str :=
  lit "<a class=" ++ dq ++ lit "screener-link-primary" ++ dq ++ lit ">"
  ++ lit t ++ lit "</a>".

(** [<td>t</td>] *)
Definition table_cell (t : str) : str := lit "<td>" ++ t ++ lit "</td>".

(** A listing page whose embedded JSON names one symbol 501 times and whose
    HTML has no stock anchors. *)
Definition repeated_payload : json :=
  JList (repeat (JDict [(lit "s", JStr (lit "AAPL"))]) 501).

Definition repeated_payload_text : str :=
  lit "[" ++ join (lit ",") (repeat (symbol_object (lit "AAPL")) 501)
  ++ lit "]".

Definition repeated_page : str := next_data_script repeated_payload_text.

Definition repeated_world : World :=
  example_world
    (fun u =>
       match u with
       | StockanalysisList => Ok repeated_page
       | FinvizScreener _ => Raised ConnectionError
       end)
    [(repeated_page, repeated_payload_text)]
    [(repeated_payload_text, repeated_payload)]
    [] [].

(** A screener page whose table names one symbol in two rows. *)
Definition duplicate_rows_page : soup :=
  {| stocks_anchor_texts := []; cell_texts := [];
     primary_link_texts := [lit "AAPL"; lit "AAPL"]; quote_hrefs := [] |}.

(** A screener of two rows a page whose third page is empty. *)
Definition rows_page (a b : string) : soup :=
  {| stocks_anchor_texts := []; cell_texts := [];
     primary_link_texts := [lit a; lit b]; quote_hrefs := [] |}.

Definition rows_html (a b : string) : str :=
  primary_anchor a ++ primary_anchor b.


(** A listing page whose embedded JSON names 600 different symbols, AAA,
    AAB, ... in reverse order. *)
Definition symbol_number (n : nat) : str :=
  map (fun d => N.of_nat (65 + d))
      [(n / 676) mod 26; (n / 26) mod 26; n mod 26].

Definition listing_payload : json :=
  JDict [(lit "data",
          JList (map (fun n => JDict [(lit "s", JStr (symbol_number n))])
                     (rev (seq 0 600))))].

Definition listing_payload_text : str :=
  lit "{" ++ dq ++ lit "data" ++ dq ++ lit ":["
  ++ join (lit ",")
          (map (fun n => symbol_object (symbol_number n)) (rev (seq 0 600)))
  ++ lit "]}".

Definition listing_page : str := next_data_script listing_payload_text.

Definition listing_world : World :=
  example_world
    (fun u =>
       match u with
       | StockanalysisList => Ok listing_page
       | FinvizScreener _ => Raised ConnectionError
       end)
    [(listing_page, listing_payload_text)]
    [(listing_payload_text, listing_payload)]
    [] [].

(** Every page is served and holds nothing. *)
Definition blank_world : World :=
  example_world (fun _ => Ok []) [] [] [] [].

(** A file of two valid lines. *)
Definition two_line_file : file_state :=
  File (lit "AAPL" ++ [10%N] ++ lit "MSFT" ++ [10%N]).

(** A screener that announces 12 stocks, five rows a page, and times out
    on its second page. *)
Definition flaky_first_page : soup :=
  {| stocks_anchor_texts := [];
     cell_texts := [lit "Total"; lit "12 stocks"];
     primary_link_texts :=
       [lit "AAA"; lit "BBB"; lit "CCC"; lit "DDD"; lit "EEE"];
     quote_hrefs := [] |}.

Definition flaky_first_html : str :=
  table_cell (lit "Total") ++ table_cell (lit "12 stocks")
  ++ primary_anchor "AAA" ++ primary_anchor "BBB" ++ primary_anchor "CCC"
  ++ primary_anchor "DDD" ++ primary_anchor "EEE".

Definition flaky_world : World :=
  example_world
    (fun u =>
       match u with
       | StockanalysisList => Raised ReadTimeout
       | FinvizScreener r =>
         if (r =? 1)%Z then Ok flaky_first_html
         else if (r =? 6)%Z then Raised ReadTimeout
         else if (r =? 11)%Z then Ok (rows_html "KKK" "LLL")
         else Ok []
       end)
    [] []
    [(flaky_first_html, flaky_first_page);
     (rows_html "KKK" "LLL", rows_page "KKK" "LLL")]
    [(lit "12 stocks", Ok 12%Z)].

(** A listing page with a script block that is not JSON and 600 stock
    anchors, the first of them twice. *)
Definition anchors_page : soup :=
  {| stocks_anchor_texts := map symbol_number (0 :: seq 0 600);
     cell_texts := []; primary_link_texts := []; quote_hrefs := [] |}.

Definition anchors_html : str :=
  next_data_script (lit "{")
  ++ flat_map stocks_anchor (map symbol_number (0 :: seq 0 600)).

Definition broken_json_world : World :=
  example_world
    (fun u =>
       match u with
       | StockanalysisList => Ok anchors_html
       | FinvizScreener _ => Raised ConnectionError
       end)
    [(anchors_html, lit "{")]
    []
    [(anchors_html, anchors_page)]
    [].

(** A screener page without marker-class anchors, whose rows link to the
    quote page several times. *)
Definition quote_links_page : soup :=
  {| stocks_anchor_texts := []; cell_texts := []; primary_link_texts := [];
     quote_hrefs := [lit "quote.ashx?t=AAPL&ty=c&p=d&b=1";
                     lit "quote.ashx?t=AAPL&ty=c&p=d&b=1";
                     lit "quote.ashx?t=msft";
                     lit "quote.ashx?t=MSFT&ty=c&p=d&b=1"] |}.

(** A screener whose first page announces a number of 4301 digits, more
    than [int] converts. *)
Definition overlong_count : str := repeat 57%N 4301 ++ lit " stocks".

Definition overlong_first_page : soup :=
  {| stocks_anchor_texts := []; cell_texts := [overlong_count];
     primary_link_texts := [lit "AAA"; lit "BBB"]; quote_hrefs := [] |}.

Definition overlong_first_html : str :=
  table_cell overlong_count ++ rows_html "AAA" "BBB".

Definition overlong_count_world : World :=
  example_world
    (fun u =>
       match u with
       | StockanalysisList => Raised ReadTimeout
       | FinvizScreener r =>
         if (r =? 1)%Z then Ok overlong_first_html
         else Ok (rows_html "CCC" "DDD")
       end)
    [] []
    [(overlong_first_html, overlong_first_page);
     (rows_html "CCC" "DDD", rows_page "CCC" "DDD")]
    [(overlong_count, Raised ValueError)].

(** Every request fails. *)
Definition offline_world : World :=
  example_world (fun _ => Raised ConnectionError) [] [] [] [].

(** * Properties *)

(** ** Strings *)

Lemma in_range_spec lo hi c :
  in_range lo hi c = true <-> (lo <= c <= hi)%N.
Proof.
  unfold in_range. rewrite andb_true_iff, !N.leb_le. tauto.
Qed.

Lemma in_range_false lo hi c :
  in_range lo hi c = false <-> (c < lo \/ hi < c)%N.
Proof.
  unfold in_range. rewrite andb_false_iff, !N.leb_gt. tauto.
Qed.

Lemma str_eqb_eq a b : str_eqb a b = true <-> a = b.
Proof.
  unfold str_eqb. destruct (list_eq_dec N.eq_dec a b); split; congruence.
Qed.

Lemma str_eqb_refl a : str_eqb a a = true.
Proof. now apply str_eqb_eq. Qed.

Lemma str_eqb_neq a b : str_eqb a b = false <-> a <> b.
Proof.
  unfold str_eqb. destruct (list_eq_dec N.eq_dec a b); split; congruence.
Qed.

Lemma mem_In x l : mem x l = true <-> In x l.
Proof.
  unfold mem. rewrite existsb_exists. split.
  - intros (y & Hy & E). apply str_eqb_eq in E. now subst.
  - intros H. exists x. split; [assumption | apply str_eqb_refl].
Qed.

Lemma mem_not_In x l : mem x l = false <-> ~ In x l.
Proof.
  rewrite <- mem_In. destruct (mem x l); split; congruence.
Qed.

Section StringFacts.
Context {ucd : CaseData}.

Lemma lstrip_Forall (P : codepoint -> Prop) s :
  Forall P s -> Forall P (lstrip s).
Proof.
  induction 1 as [|c r Hc Hr IH]; simpl; [constructor|].
  destruct (cp_isspace c); [assumption | now constructor].
Qed.

Lemma strip_Forall (P : codepoint -> Prop) s :
  Forall P s -> Forall P (strip s).
Proof.
  intros H. unfold strip, rstrip.
  apply Forall_rev, lstrip_Forall, Forall_rev, lstrip_Forall, H.
Qed.

Lemma remove_hyphens_Forall (P : codepoint -> Prop) s :
  Forall P s -> Forall P (remove_hyphens s).
Proof.
  intros H. apply Forall_forall. intros c Hc.
  apply filter_In in Hc. rewrite Forall_forall in H. now apply H.
Qed.

Lemma remove_hyphens_nil_length s :
  s = [] -> length (remove_hyphens s) = 0.
Proof. now intros ->. Qed.

Lemma isalpha_spec s :
  isalpha s = true <-> s <> [] /\ Forall (fun c => cp_isalpha c = true) s.
Proof.
  unfold isalpha. destruct s as [|c r].
  - split; [discriminate | intros [H _]; now elim H].
  - rewrite forallb_forall, Forall_forall. split.
    + intros H. split; [discriminate | assumption].
    + now intros [_ H].
Qed.

Lemma isupper_spec s :
  isupper s = true <->
  Forall (fun c => cp_islower c = false /\ cp_istitle c = false) s
  /\ Exists (fun c => cp_isupper c = true) s.
Proof.
  unfold isupper.
  rewrite andb_true_iff, forallb_forall, existsb_exists,
    Forall_forall, Exists_exists.
  split; intros [H1 H2]; (split; [|assumption]); intros c Hc;
    specialize (H1 c Hc).
  - rewrite negb_true_iff in H1. now apply orb_false_iff in H1.
  - rewrite negb_true_iff. now apply orb_false_iff.
Qed.

(** The validator decides exactly [valid_shape]. *)
Lemma is_valid_ticker_shape s :
  is_valid_ticker s = true <-> valid_shape s.
Proof.
  unfold is_valid_ticker, valid_shape.
  destruct (strip s) as [|c r] eqn:E.
  - simpl. split; [discriminate | intros [[H _] _]; lia].
  - cbv zeta. set (clean := remove_hyphens (c :: r)).
    rewrite !andb_true_iff, isalpha_spec, isupper_spec,
      Nat.leb_le, Nat.leb_le.
    split.
    + intros [[[H1 H5] [_ Ha]] Hu]. tauto.
    + intros [[H1 H5] [Ha Hu]]. repeat split; try tauto.
      intros Hn. rewrite Hn in H1. simpl in H1. lia.
Qed.

End StringFacts.

(** On Basic Latin a letter is unchanged by [upper] exactly when it is not
    lowercase, and then it is uppercase. *)
Lemma latin_letter_case c :
  (c < 128)%N -> @cp_isalpha ucd_tables c = true ->
  (@cp_upper ucd_tables c = [c] <-> @cp_islower ucd_tables c = false)
  /\ (@cp_islower ucd_tables c = false -> @cp_isupper ucd_tables c = true)
  /\ @cp_istitle ucd_tables c = false
  /\ length (@cp_upper ucd_tables c) = 1.
Proof.
  intros Hc Ha. simpl in *. unfold is_cjk in Ha.
  rewrite !orb_true_iff, !in_range_spec in Ha.
  repeat split.
  - destruct (in_range 97%N 122%N c) eqn:E; [|reflexivity].
    intros Heq. apply in_range_spec in E. injection Heq. lia.
  - intros ->. reflexivity.
  - intros Hl. apply in_range_false in Hl. apply in_range_spec. lia.
  - now destruct (in_range 97%N 122%N c).
Qed.

Lemma latin_upper_fixed s :
  is_ascii s -> Forall (fun c => @cp_isalpha ucd_tables c = true) s ->
  (@upper ucd_tables s = s <->
   Forall (fun c => @cp_islower ucd_tables c = false
                    /\ @cp_istitle ucd_tables c = false) s).
Proof.
  intros Hs Ha. induction s as [|c r IH]; [split; [constructor | reflexivity]|].
  inversion Hs as [|? ? Hc Hr]; subst. inversion Ha as [|? ? Hac Har]; subst.
  destruct (latin_letter_case Hc Hac) as (Hfix & _ & Ht & Hlen).
  specialize (IH Hr Har).
  change (@upper ucd_tables (c :: r)) with (@cp_upper ucd_tables c ++ @upper ucd_tables r).
  destruct (@cp_upper ucd_tables c) as [|u [|? ?]] eqn:Eu; try discriminate.
  simpl. split.
  - intros Heq. injection Heq as -> Hrest. constructor.
    + split; [now apply Hfix | assumption].
    + now apply IH.
  - intros HF. inversion HF as [|? ? [Hl _] HFr]; subst.
    apply Hfix in Hl. injection Hl as ->. f_equal. now apply IH.
Qed.

(** On strings of Basic Latin the specification's wording and the code's
    decision coincide. *)
Lemma latin_valid_as_specified s :
  is_ascii s ->
  (@valid_shape ucd_tables s <-> @valid_as_specified ucd_tables s).
Proof.
  intros Hs. unfold valid_shape, valid_as_specified. cbv zeta.
  assert (Hc : is_ascii (remove_hyphens (strip s)))
    by now apply remove_hyphens_Forall, strip_Forall.
  set (clean := remove_hyphens (strip s)) in *.
  split.
  - intros (Hlen & Ha & Hl & _). repeat split; try tauto.
    now apply latin_upper_fixed.
  - intros (Hlen & Ha & Hu). apply latin_upper_fixed in Hu; try assumption.
    repeat split; try tauto.
    destruct clean as [|c r]; [simpl in Hlen; lia|].
    apply Exists_cons_hd.
    inversion Hc; inversion Ha; inversion Hu; subst.
    apply latin_letter_case; tauto.
Qed.

(** ** The validator *)

(** The validator on the specification's examples. *)
Example is_valid_ticker_examples :
  @is_valid_ticker ucd_tables (lit "AAPL") = true
  /\ @is_valid_ticker ucd_tables (lit "BRK-B") = true
  /\ @is_valid_ticker ucd_tables (lit " AAPL ") = true
  /\ @is_valid_ticker ucd_tables (lit "TOOLONG1") = false
  /\ @is_valid_ticker ucd_tables (lit "ab") = false
  /\ @is_valid_ticker ucd_tables (lit "") = false
  /\ @is_valid_ticker ucd_tables (lit "---") = false
  /\ @is_valid_ticker ucd_tables (lit "A" ++ cjk_letter) = true.
Proof. repeat split; vm_compute; reflexivity. Qed.

(** C1 (as the specification words it) fails on a letter without case:
    U+4E2D is alphabetic and equal to its own uppercase form, and the
    validator rejects it. *)
Lemma validator_rejects_uncased_letter :
  ~ (@is_valid_ticker ucd_tables cjk_letter = true
     <-> @valid_as_specified ucd_tables cjk_letter).
Proof.
  intros [_ H].
  assert (Hs : @valid_as_specified ucd_tables cjk_letter).
  { unfold valid_as_specified. vm_compute.
    repeat split; try lia. repeat constructor. }
  specialize (H Hs). vm_compute in H. discriminate.
Qed.

(** C1, amended: for every string [s] and every character database,
    [is_valid_ticker s] is true exactly when the string, stripped and with
    its hyphens removed, has 1 to 5 characters, all of them letters, none of
    them lowercase or titlecase and at least one uppercase; for a string of
    Basic Latin characters this is the same as being equal to its own
    uppercase form.  The validator is a total function to [bool]. *)
Theorem is_valid_ticker_spec (s : str) :
  (forall ucd : CaseData, @is_valid_ticker ucd s = true <-> @valid_shape ucd s)
  /\ (is_ascii s ->
      (@is_valid_ticker ucd_tables s = true
       <-> @valid_as_specified ucd_tables s)).
Proof.
  split.
  - intros ucd. apply is_valid_ticker_shape.
  - intros Hs. rewrite is_valid_ticker_shape.
    now apply latin_valid_as_specified.
Qed.

Lemma is_valid_ticker_spec_witness :
  is_ascii (lit "BRK-B")
  /\ @is_valid_ticker ucd_tables (lit "BRK-B") = true
  /\ @valid_as_specified ucd_tables (lit "BRK-B").
Proof.
  assert (Ha : is_ascii (lit "BRK-B")).
  { unfold is_ascii. vm_compute. repeat constructor. }
  split; [exact Ha|].
  assert (Hv : @is_valid_ticker ucd_tables (lit "BRK-B") = true)
    by (vm_compute; reflexivity).
  split; [exact Hv|].
  exact (proj1 (proj2 (is_valid_ticker_spec (lit "BRK-B")) Ha) Hv).
Defined.

(** ** Order, sorting and deduplication *)

Lemma str_leb_refl a : str_leb a a = true.
Proof.
  induction a as [|x a IH]; simpl; [reflexivity|].
  now rewrite N.ltb_irrefl, N.eqb_refl.
Qed.

Lemma str_leb_total a b : str_leb a b = true \/ str_leb b a = true.
Proof.
  revert b. induction a as [|x a IH]; intros [|y b]; simpl; auto.
  destruct (N.ltb_spec x y); auto.
  destruct (N.ltb_spec y x); auto.
  assert (x = y) by lia. subst. rewrite N.eqb_refl. apply IH.
Qed.

Lemma str_leb_antisym a b :
  str_leb a b = true -> str_leb b a = true -> a = b.
Proof.
  revert b. induction a as [|x a IH]; intros [|y b]; simpl;
    try discriminate; auto.
  destruct (N.ltb_spec x y), (N.ltb_spec y x); try lia.
  - destruct (N.eqb_spec y x); [lia | discriminate].
  - destruct (N.eqb_spec x y); [lia | discriminate].
  - destruct (N.eqb_spec x y); [|discriminate].
    subst. rewrite N.eqb_refl. intros. f_equal. now apply IH.
Qed.

Lemma str_leb_trans a b c :
  str_leb a b = true -> str_leb b c = true -> str_leb a c = true.
Proof.
  revert b c. induction a as [|x a IH]; intros [|y b] [|z c]; simpl;
    try discriminate; auto.
  destruct (N.ltb_spec x y), (N.ltb_spec y z), (N.ltb_spec x z);
    try reflexivity; try lia;
    repeat match goal with
           | |- context [(?u =? ?v)%N] => destruct (N.eqb_spec u v)
           end; try discriminate; try lia.
  apply IH.
Qed.

Lemma insert_sorted_perm x l : Permutation (insert_sorted x l) (x :: l).
Proof.
  induction l as [|y r IH]; simpl; [reflexivity|].
  destruct (str_leb x y); [reflexivity|].
  rewrite IH. apply perm_swap.
Qed.

Lemma sorted_perm l : Permutation (sorted l) l.
Proof.
  induction l as [|x r IH]; simpl; [reflexivity|].
  rewrite insert_sorted_perm. now constructor.
Qed.

Lemma insert_sorted_ordered x l :
  StronglySorted str_le l -> StronglySorted str_le (insert_sorted x l).
Proof.
  induction 1 as [|y r Hr IH Hy]; simpl.
  - repeat constructor.
  - destruct (str_leb x y) eqn:E.
    + constructor; [now constructor|].
      constructor; [exact E|].
      eapply Forall_impl; [|exact Hy].
      intros z Hz. exact (str_leb_trans _ _ _ E Hz).
    + constructor; [exact IH|].
      eapply Permutation_Forall; [symmetry; apply insert_sorted_perm|].
      constructor; [|exact Hy].
      destruct (str_leb_total x y) as [H|H]; [congruence | exact H].
Qed.

Lemma sorted_ordered l : StronglySorted str_le (sorted l).
Proof.
  induction l as [|x r IH]; simpl; [constructor|].
  now apply insert_sorted_ordered.
Qed.

Lemma ordered_nodup_strict l :
  StronglySorted str_le l -> NoDup l -> StronglySorted str_lt l.
Proof.
  induction 1 as [|x r Hr IH Hx]; intros Hn; [constructor|].
  inversion Hn as [|? ? Hnx Hnr]; subst.
  constructor; [now apply IH|].
  rewrite Forall_forall in *. intros y Hy. split; [now apply Hx|].
  intros ->. contradiction.
Qed.

(** A strictly ascending list is determined by its elements, so [sorted]
    of a set does not depend on the order the set is walked in. *)
Lemma strict_sorted_unique l1 l2 :
  StronglySorted str_lt l1 -> StronglySorted str_lt l2 ->
  (forall x, In x l1 <-> In x l2) -> l1 = l2.
Proof.
  intros H1. revert l2.
  induction H1 as [|x r Hr IH Hx]; intros l2 H2 Hin.
  - destruct l2 as [|y ?]; [reflexivity|].
    exfalso. apply (proj2 (Hin y)). now left.
  - destruct H2 as [|y r2 Hr2 Hy].
    + exfalso. apply (proj1 (Hin x)). now left.
    + rewrite Forall_forall in Hx, Hy.
      assert (x = y).
      { destruct (proj1 (Hin x) (or_introl eq_refl)) as [E|Hx2]; [now subst|].
        destruct (proj2 (Hin y) (or_introl eq_refl)) as [E|Hy1]; [now subst|].
        apply str_leb_antisym; [apply (Hx y Hy1) | apply (Hy x Hx2)]. }
      subst y. f_equal. apply IH; [exact Hr2|].
      intros z. split; intros Hz.
      * destruct (proj1 (Hin z) (or_intror Hz)) as [E|H]; [|exact H].
        subst z. exfalso. exact (proj2 (Hx x Hz) eq_refl).
      * destruct (proj2 (Hin z) (or_intror Hz)) as [E|H]; [|exact H].
        subst z. exfalso. exact (proj2 (Hy x Hz) eq_refl).
Qed.

Lemma fromkeys_from_In seen l x :
  In x (fromkeys_from seen l) <-> In x l /\ ~ In x seen.
Proof.
  revert seen. induction l as [|y r IH]; intros seen; simpl; [tauto|].
  destruct (mem y seen) eqn:E.
  - apply mem_In in E. rewrite IH. split.
    + tauto.
    + intros [[->|H] Hn]; [contradiction | tauto].
  - apply mem_not_In in E. simpl. rewrite IH. simpl. split.
    + intros [->|[H Hn]]; [tauto|]. split; [tauto|]. intros Hs. apply Hn. now right.
    + intros [[->|H] Hn]; [now left|].
      destruct (list_eq_dec N.eq_dec y x) as [->|Hne]; [now left|].
      right. split; [exact H|]. intros [Hy|Hs]; [congruence | contradiction].
Qed.

Lemma fromkeys_from_NoDup seen l : NoDup (fromkeys_from seen l).
Proof.
  revert seen. induction l as [|y r IH]; intros seen; simpl; [constructor|].
  destruct (mem y seen); [apply IH|].
  constructor; [|apply IH].
  rewrite fromkeys_from_In. intros [_ H]. apply H. now left.
Qed.

Lemma dict_fromkeys_In l x : In x (dict_fromkeys l) <-> In x l.
Proof. unfold dict_fromkeys. rewrite fromkeys_from_In. simpl. tauto. Qed.

Lemma dict_fromkeys_NoDup l : NoDup (dict_fromkeys l).
Proof. apply fromkeys_from_NoDup. Qed.

Lemma sorted_set_strict l : StronglySorted str_lt (sorted (dict_fromkeys l)).
Proof.
  apply ordered_nodup_strict; [apply sorted_ordered|].
  eapply Permutation_NoDup; [symmetry; apply sorted_perm|].
  apply dict_fromkeys_NoDup.
Qed.

Lemma sorted_set_In l x : In x (sorted (dict_fromkeys l)) <-> In x l.
Proof.
  rewrite <- (dict_fromkeys_In l x). split; apply Permutation_in;
    [apply sorted_perm | symmetry; apply sorted_perm].
Qed.

Lemma join_lines l :
  l <> [] -> file_text l = flat_map (fun t => t ++ newline) l.
Proof.
  unfold file_text.
  induction l as [|x r IH]; intros Hl; [now elim Hl|].
  destruct r as [|y r'].
  - simpl. now rewrite app_nil_r.
  - change (join newline (x :: y :: r'))
      with (x ++ newline ++ join newline (y :: r')).
    rewrite <- !app_assoc, IH by discriminate.
    change (flat_map (fun t => t ++ newline) (x :: y :: r'))
      with ((x ++ newline) ++ flat_map (fun t => t ++ newline) (y :: r')).
    now rewrite <- app_assoc.
Qed.

(** ** The finalize step *)

Section Finalize.
Context {ucd : CaseData}.

Lemma finalize_In raw t :
  In t (finalize raw)
  <-> In t raw /\ is_valid_ticker t = true /\ ~ In t exclude.
Proof.
  unfold finalize, py_set.
  rewrite sorted_set_In, filter_In, andb_true_iff, negb_true_iff, mem_not_In.
  tauto.
Qed.

Lemma finalize_strict raw : StronglySorted str_lt (finalize raw).
Proof. apply sorted_set_strict. Qed.

(** Whatever order the set is walked in, sorting gives [finalize]. *)
Lemma finalize_any_order raw set_items :
  NoDup set_items ->
  (forall t, In t set_items
             <-> In t raw /\ is_valid_ticker t = true /\ ~ In t exclude) ->
  sorted set_items = finalize raw.
Proof.
  intros Hn Hin. apply strict_sorted_unique.
  - apply ordered_nodup_strict; [apply sorted_ordered|].
    eapply Permutation_NoDup; [symmetry; apply sorted_perm | exact Hn].
  - apply finalize_strict.
  - intros t. rewrite finalize_In, <- Hin. split; apply Permutation_in;
      [apply sorted_perm | symmetry; apply sorted_perm].
Qed.

Lemma finalize_idempotent raw : finalize (finalize raw) = finalize raw.
Proof.
  apply strict_sorted_unique; try apply finalize_strict.
  intros t. rewrite (finalize_In (finalize raw)), !finalize_In. tauto.
Qed.

Lemma main_writes_finalized {world : World} fs content :
  main_outcome fs = Written content ->
  utf8_encode (file_text (finalize live_tickers)) = Ok content.
Proof.
  unfold main_outcome. cbv zeta.
  destruct (if length live_tickers <? THRESHOLD
            then load_existing fs else Ok []) as [[|t l]|e];
    try discriminate.
  destruct live_tickers; [discriminate|]. unfold write_text.
  destruct (utf8_encode _); [now intros [= <-] | discriminate].
Qed.

Lemma finalize_Forall (P : str -> Prop) raw :
  Forall P raw -> Forall P (finalize raw).
Proof.
  intros H. apply Forall_forall. intros t Ht. apply finalize_In in Ht.
  rewrite Forall_forall in H. now apply H.
Qed.

End Finalize.

(** ** The JSON walk *)

Section Extractor.
Context {ucd : CaseData}.

Lemma extract_beyond_cap obj depth :
  (MAX_DEPTH < depth)%Z -> _extract_tickers_from_json obj depth = [].
Proof.
  intros H. apply Z.gtb_lt in H.
  destruct obj; simpl; now rewrite H.
Qed.

Lemma extract_dict kvs depth :
  (depth <= MAX_DEPTH)%Z ->
  _extract_tickers_from_json (JDict kvs) depth
  = key_matches kvs
    ++ flat_map (fun kv => _extract_tickers_from_json (snd kv) (depth + 1)) kvs.
Proof.
  intros H. simpl.
  destruct (depth >? MAX_DEPTH)%Z eqn:E; [apply Z.gtb_lt in E; lia|].
  f_equal. apply flat_map_ext. now intros [k v].
Qed.

Lemma extract_list items depth :
  (depth <= MAX_DEPTH)%Z ->
  _extract_tickers_from_json (JList items) depth
  = flat_map (fun item => _extract_tickers_from_json item (depth + 1)) items.
Proof.
  intros H. simpl.
  destruct (depth >? MAX_DEPTH)%Z eqn:E; [apply Z.gtb_lt in E; lia|].
  reflexivity.
Qed.

Lemma collect_calls_all {A : Type} (call : A -> option (list str))
      (g : A -> list str) l :
  (forall x, call x = Some (g x)) ->
  collect_calls call l = Some (flat_map g l).
Proof.
  intros H. induction l as [|x r IH]; simpl; [reflexivity|].
  now rewrite H, IH.
Qed.

(** A call at [depth] never needs more than [12 - depth] frames. *)
Lemma extract_on_stack_enough frames :
  forall obj depth,
    1 <= frames -> (12 - depth <= Z.of_nat frames)%Z ->
    extract_on_stack frames obj depth
    = Some (_extract_tickers_from_json obj depth).
Proof.
  induction frames as [|frames IH]; intros obj depth H1 H2; [lia|].
  cbn [extract_on_stack].
  destruct (depth >? MAX_DEPTH)%Z eqn:E.
  - apply Z.gtb_lt in E. now rewrite extract_beyond_cap.
  - assert (Hd : (depth <= MAX_DEPTH)%Z).
    { destruct (Z.gtb_spec depth MAX_DEPTH); [discriminate | lia]. }
    unfold MAX_DEPTH in Hd.
    assert (Hsub : forall child,
               extract_on_stack frames child (depth + 1)
               = Some (_extract_tickers_from_json child (depth + 1))).
    { intros child. apply IH; lia. }
    destruct obj; try (simpl; now rewrite E).
    + rewrite extract_list by exact Hd.
      apply collect_calls_all. exact Hsub.
    + rewrite extract_dict by exact Hd.
      rewrite (collect_calls_all _
                 (fun kv => _extract_tickers_from_json (snd kv) (depth + 1))).
      * reflexivity.
      * intros kv. apply Hsub.
Qed.

Lemma key_matches_next inner : key_matches [(lit "next", inner)] = [].
Proof. reflexivity. Qed.

Lemma extract_nest_beyond n :
  forall depth,
    (MAX_DEPTH < depth + Z.of_nat n)%Z ->
    _extract_tickers_from_json (nest n symbol_leaf) depth = [].
Proof.
  induction n as [|n IH]; intros depth H.
  - apply extract_beyond_cap. lia.
  - destruct (Z.le_gt_cases depth MAX_DEPTH) as [Hd|Hd].
    + cbn [nest]. rewrite extract_dict by exact Hd.
      rewrite key_matches_next. simpl. rewrite app_nil_r.
      apply IH. lia.
    + apply extract_beyond_cap. lia.
Qed.

Lemma flat_map_option_length {A B : Type} (P : A -> bool) (f : A -> B) l :
  length (flat_map (fun a => if P a then [f a] else []) l)
  = length (filter P l).
Proof.
  induction l as [|a r IH]; simpl; [reflexivity|].
  destruct (P a); simpl; now rewrite IH.
Qed.

Lemma key_matches_In kvs key val :
  In key candidate_keys -> dict_get key kvs = Some (JStr val) ->
  is_valid_ticker val = true -> In (upper val) (key_matches kvs).
Proof.
  intros Hk Hg Hv. unfold key_matches. apply in_flat_map.
  exists key. split; [exact Hk|]. rewrite Hg, Hv. now left.
Qed.

Lemma key_matches_length kvs :
  length (key_matches kvs) = length (filter (key_counts kvs) candidate_keys).
Proof.
  unfold key_matches.
  rewrite <- (flat_map_option_length (key_counts kvs)
                (fun key => match dict_get key kvs with
                            | Some (JStr val) => upper val
                            | _ => []
                            end)).
  f_equal. apply flat_map_ext. intros key. unfold key_counts.
  destruct (dict_get key kvs) as [[]|]; reflexivity.
Qed.

End Extractor.

(** C4: the walk is a total function; started at depth 0 it never has more
    than 12 calls on the stack whatever the value; a call at a depth above
    10 returns the empty list; a symbol under more than 10 objects (15 for
    instance) is not found, one under exactly 10 is. *)
Theorem extract_depth_guard (ucd : CaseData) (obj : json) (depth : Z) (n : nat) :
  extract_on_stack 12 obj 0 = Some (_extract_tickers_from_json obj 0)
  /\ ((MAX_DEPTH < depth)%Z -> _extract_tickers_from_json obj depth = [])
  /\ (10 < n -> _extract_tickers_from_json (nest n symbol_leaf) 0 = [])
  /\ @_extract_tickers_from_json ucd_tables (nest 15 symbol_leaf) 0 = []
  /\ @_extract_tickers_from_json ucd_tables (nest 10 symbol_leaf) 0
     = [lit "AAPL"].
Proof.
  split; [apply extract_on_stack_enough; simpl; lia|].
  split; [apply extract_beyond_cap|].
  split; [intros H; apply extract_nest_beyond; unfold MAX_DEPTH; lia|].
  split; vm_compute; reflexivity.
Qed.

Lemma extract_depth_guard_witness :
  (MAX_DEPTH < 11)%Z /\ 10 < 15
  /\ @_extract_tickers_from_json ucd_tables symbol_leaf 11 = []
  /\ @_extract_tickers_from_json ucd_tables (nest 15 symbol_leaf) 0 = [].
Proof.
  assert (H1 : (MAX_DEPTH < 11)%Z) by (unfold MAX_DEPTH; lia).
  assert (H2 : 10 < 15) by lia.
  destruct (extract_depth_guard ucd_tables symbol_leaf 11 15)
    as (_ & Hcap & Hnest & _).
  exact (conj H1 (conj H2 (conj (Hcap H1) (Hnest H2)))).
Defined.

(** C10: an object within the depth cap contributes one symbol for every
    candidate key it holds with a valid string value, not only for the
    first: the symbols of its own keys come first, as many as there are such
    keys, each one uppercased; [{"s": "AAPL", "symbol": "AAPL",
    "ticker": "MSFT"}] gives AAPL, AAPL, MSFT. *)
Theorem extract_collects_every_key (ucd : CaseData)
        (kvs : list (str * json)) (depth : Z) :
  (depth <= MAX_DEPTH)%Z ->
  _extract_tickers_from_json (JDict kvs) depth
  = key_matches kvs
    ++ flat_map (fun kv => _extract_tickers_from_json (snd kv) (depth + 1)) kvs
  /\ length (key_matches kvs)
     = length (filter (key_counts kvs) candidate_keys)
  /\ (forall key val,
        In key candidate_keys -> dict_get key kvs = Some (JStr val) ->
        is_valid_ticker val = true ->
        In (upper val) (_extract_tickers_from_json (JDict kvs) depth))
  /\ @_extract_tickers_from_json ucd_tables (JDict multi_key_object) 0
     = [lit "AAPL"; lit "AAPL"; lit "MSFT"].
Proof.
  intros Hd.
  split; [now apply extract_dict|].
  split; [apply key_matches_length|].
  split; [|vm_compute; reflexivity].
  intros key val Hk Hg Hv. rewrite extract_dict by exact Hd.
  apply in_or_app. left. eapply key_matches_In; eassumption.
Qed.

Lemma extract_collects_every_key_witness :
  (0 <= MAX_DEPTH)%Z
  /\ length (@key_matches ucd_tables multi_key_object) = 3
  /\ In (@upper ucd_tables (lit "MSFT"))
        (@_extract_tickers_from_json ucd_tables (JDict multi_key_object) 0).
Proof.
  assert (Hd : (0 <= MAX_DEPTH)%Z) by (unfold MAX_DEPTH; lia).
  destruct (extract_collects_every_key ucd_tables multi_key_object Hd)
    as (_ & Hlen & Hin & _).
  split; [exact Hd|]. split; [exact Hlen|].
  apply (Hin (lit "ticker") (lit "MSFT")).
  - vm_compute. tauto.
  - reflexivity.
  - vm_compute. reflexivity.
Defined.

(** C3, on the code: for [{"data": [{"symbol": "ABCD"}, {"ticker":
    "wxyz"}]}] the walk validates each value as it stands and uppercases it
    afterwards, so "wxyz" is rejected and only ABCD is returned, although
    its uppercase form WXYZ passes the validator. *)
Theorem extract_validates_before_upper :
  @_extract_tickers_from_json ucd_tables nested_example 0 = [lit "ABCD"]
  /\ @is_valid_ticker ucd_tables (lit "wxyz") = false
  /\ @upper ucd_tables (lit "wxyz") = lit "WXYZ"
  /\ @is_valid_ticker ucd_tables (lit "WXYZ") = true
  /\ @keep_valid_upper ucd_tables [lit "wxyz"] = [lit "WXYZ"].
Proof. repeat split; vm_compute; reflexivity. Qed.

(** ** The source strategies *)

Section Strategies.
Context {ucd : CaseData} {world : World}.

Lemma keep_valid_upper_valid texts :
  Forall (fun t => is_valid_ticker t = true) (keep_valid_upper texts).
Proof.
  apply Forall_forall. intros t Ht. unfold keep_valid_upper in Ht.
  apply in_flat_map in Ht. destruct Ht as (a & _ & Ht).
  destruct (is_valid_ticker (upper (strip a))) eqn:E; [|contradiction].
  destruct Ht as [<-|[]]. exact E.
Qed.

(** Both methods of the row parser return validated symbols only, and the
    quote-link method returns them without duplicates. *)
Lemma parse_finviz_page_valid page :
  Forall (fun t => is_valid_ticker t = true) (_parse_finviz_page page).
Proof.
  unfold _parse_finviz_page.
  pose proof (keep_valid_upper_valid (primary_link_texts page)) as Hp.
  destruct (keep_valid_upper (primary_link_texts page)); [|exact Hp].
  apply Forall_forall. intros t Ht. rewrite dict_fromkeys_In in Ht.
  apply in_flat_map in Ht. destruct Ht as (href & _ & Ht).
  destruct (search_t_param href) as [m|]; [|contradiction].
  destruct (is_valid_ticker m) eqn:E; [|contradiction].
  destruct Ht as [<-|[]]. exact E.
Qed.

Lemma parse_finviz_page_secondary_NoDup page :
  keep_valid_upper (primary_link_texts page) = [] ->
  NoDup (_parse_finviz_page page).
Proof.
  intros H. unfold _parse_finviz_page. rewrite H. apply dict_fromkeys_NoDup.
Qed.

Lemma stockanalysis_html_all_or_nothing resp :
  try_except (stockanalysis_html resp) (fun _ => []) = []
  \/ THRESHOLD < length (try_except (stockanalysis_html resp) (fun _ => [])).
Proof.
  unfold stockanalysis_html, bind.
  destruct (BeautifulSoup (text resp)) as [page|]; [|now left].
  cbv zeta. destruct (THRESHOLD <? length _) eqn:E; [|now left].
  right. now apply Nat.ltb_lt in E.
Qed.

(** Strategy A gives nothing or more than 500 entries. *)
Lemma stockanalysis_all_or_nothing :
  fetch_from_stockanalysis = [] \/ THRESHOLD < length fetch_from_stockanalysis.
Proof.
  unfold fetch_from_stockanalysis, stockanalysis_try, bind.
  destruct (requests_get StockanalysisList) as [resp|]; [|now left].
  destruct (raise_for_status resp); [|now left].
  unfold stockanalysis_json, bind.
  destruct (search_next_data (text resp)) as [payload|];
    [|apply stockanalysis_html_all_or_nothing].
  destruct (json_loads payload) as [data|]; [|now left].
  cbv zeta.
  destruct (THRESHOLD <? length (_extract_tickers_from_json data 0)) eqn:E.
  - right. now apply Nat.ltb_lt in E.
  - apply stockanalysis_html_all_or_nothing.
Qed.

(** An exception anywhere in strategy A becomes the empty list. *)
Lemma stockanalysis_exception e :
  stockanalysis_try = Raised e -> fetch_from_stockanalysis = [].
Proof. unfold fetch_from_stockanalysis. now intros ->. Qed.

(** Strategy A gives nothing when the JSON walk returns at most 500 entries
    and the anchors at most 500 different symbols. *)
Lemma stockanalysis_below_threshold resp :
  requests_get StockanalysisList = Ok resp ->
  (forall payload data,
      search_next_data (text resp) = Some payload ->
      json_loads payload = Ok data ->
      length (_extract_tickers_from_json data 0) <= THRESHOLD) ->
  (forall page,
      BeautifulSoup (text resp) = Ok page ->
      length (dict_fromkeys (keep_valid_upper (stocks_anchor_texts page)))
      <= THRESHOLD) ->
  fetch_from_stockanalysis = [].
Proof.
  intros Hget Hjson Hhtml.
  assert (Hfall : try_except (stockanalysis_html resp) (fun _ => []) = []).
  { unfold stockanalysis_html, bind.
    destruct (BeautifulSoup (text resp)) as [page|] eqn:Es; [|reflexivity].
    specialize (Hhtml page eq_refl). cbv zeta.
    destruct (Nat.ltb_spec THRESHOLD
                (length (dict_fromkeys
                           (keep_valid_upper (stocks_anchor_texts page)))));
      [lia | reflexivity]. }
  unfold fetch_from_stockanalysis, stockanalysis_try, bind.
  rewrite Hget. destruct (raise_for_status resp); [|reflexivity].
  unfold stockanalysis_json, bind.
  destruct (search_next_data (text resp)) as [payload|]; [|exact Hfall].
  destruct (json_loads payload) as [data|] eqn:Ej; [|reflexivity].
  specialize (Hjson payload data eq_refl Ej). cbv zeta.
  destruct (Nat.ltb_spec THRESHOLD (length (_extract_tickers_from_json data 0)));
    [lia | exact Hfall].
Qed.

End Strategies.

(** ** Pagination *)



Lemma py_range_In lo hi i : In i (py_range lo hi) <-> (lo <= i < hi)%Z.
Proof.
  unfold py_range. rewrite in_map_iff. split.
  - intros (n & <- & Hn). apply in_seq in Hn. lia.
  - intros H. exists (Z.to_nat (i - lo)). split; [lia|].
    apply in_seq. lia.
Qed.

Section Pagination.
Context {ucd : CaseData} {world : World}.


(** The loop adds to the list it is given. *)
Lemma finviz_pages_grows rows_per_page pages :
  forall tickers requested,
    exists more,
      fst (finviz_pages pages rows_per_page tickers requested)
      = tickers ++ more.
Proof.
  induction pages as [|p pages IH]; intros tickers requested.
  - exists []. cbn. now rewrite app_nil_r.
  - cbn [finviz_pages].
    destruct (finviz_page_tickers _) as [[|t l]|].
    + exists []. cbn. now rewrite app_nil_r.
    + destruct (IH (tickers ++ t :: l) (requested ++ [r_start_of p rows_per_page]))
        as (more & ->).
      exists ((t :: l) ++ more). now rewrite app_assoc.
    + apply IH.
Qed.

(** Strategy B gives nothing or more than 500 symbols. *)
Lemma finviz_all_or_nothing :
  fetch_from_finviz = [] \/ THRESHOLD < length fetch_from_finviz.
Proof.
  unfold fetch_from_finviz, finviz_run.
  destruct (finviz_get 1) as [page|]; [|now left].
  destruct (total_of page) as [total|]; [|now left].
  cbv zeta. destruct (_parse_finviz_page page); [now left|].
  destruct (finviz_pages _ _ _ _) as [tickers requested].
  destruct (THRESHOLD <? length (dict_fromkeys tickers)) eqn:E; [|now left].
  right. now apply Nat.ltb_lt in E.
Qed.


(** The number on page 1 that does not convert ends the strategy after its
    first request. *)
Lemma finviz_count_raises page e :
  finviz_get 1 = Ok page -> total_of page = Raised e ->
  finviz_run = ([], [1%Z]).
Proof. unfold finviz_run. now intros -> ->. Qed.


End Pagination.

(** C5, on the code: when the embedded JSON names the single symbol AAPL 501
    times and the page has no stock anchors, strategy A counts the walked
    list with its repetitions, finds more than 500 and returns it: one
    distinct symbol is returned, not the empty list, and [main] overwrites a
    good file with it. *)
Theorem stockanalysis_counts_repeats :
  @fetch_from_stockanalysis ucd_tables repeated_world
  = repeat (lit "AAPL") 501
  /\ dict_fromkeys (@fetch_from_stockanalysis ucd_tables repeated_world)
     = [lit "AAPL"]
  /\ @stockanalysis_html ucd_tables repeated_world
       (served_page repeated_page) = Ok []
  /\ @main ucd_tables repeated_world two_line_file
     = File (lit "AAPL" ++ newline).
Proof. repeat split; vm_compute; reflexivity. Qed.

(** C7, on the code: when the marker-class method finds the same symbol in
    two rows, the row parser returns it twice; the early return of that
    method skips the deduplication the quote-link method ends with. *)
Theorem parse_finviz_page_primary_repeats :
  @_parse_finviz_page ucd_tables duplicate_rows_page
  = [lit "AAPL"; lit "AAPL"]
  /\ ~ NoDup (@_parse_finviz_page ucd_tables duplicate_rows_page).
Proof.
  split; [vm_compute; reflexivity|].
  intros H. inversion H as [|? ? Hn _]; subst. apply Hn. now left.
Qed.



(** ** The orchestrator *)

Section Orchestrator.
Context {ucd : CaseData} {world : World}.

Lemma live_tickers_all_or_nothing :
  live_tickers = [] \/ THRESHOLD < length live_tickers.
Proof.
  unfold live_tickers. cbv zeta.
  destruct (Nat.ltb_spec (length fetch_from_stockanalysis) THRESHOLD) as [H|H].
  - apply finviz_all_or_nothing.
  - destruct stockanalysis_all_or_nothing as [E|E]; [|now right].
    rewrite E in H. unfold THRESHOLD in H. simpl in H. lia.
Qed.

Lemma live_tickers_below :
  length fetch_from_stockanalysis < THRESHOLD ->
  length fetch_from_finviz < THRESHOLD ->
  live_tickers = [].
Proof.
  intros HA HB. destruct live_tickers_all_or_nothing as [E|E]; [exact E|].
  exfalso. unfold live_tickers in E. cbv zeta in E.
  apply Nat.ltb_lt in HA. rewrite HA in E. lia.
Qed.

Lemma main_outcome_nothing_live fs :
  live_tickers = [] ->
  main_outcome fs
  = match load_existing fs with
    | Raised e => ReadRaised e
    | Ok [] => TotalFailure
    | Ok existing => Preserved existing
    end.
Proof.
  intros E. unfold main_outcome. rewrite E. cbn.
  now destruct (load_existing fs) as [[|t l]|e].
Qed.

Lemma main_nothing_live fs : live_tickers = [] -> main fs = fs.
Proof.
  intros E. unfold main. rewrite (main_outcome_nothing_live fs E).
  now destruct (load_existing fs) as [[|t l]|e].
Qed.

Lemma main_outcome_live fs :
  live_tickers <> [] ->
  main_outcome fs = write_text (file_text (finalize live_tickers)).
Proof.
  intros Hne. destruct live_tickers_all_or_nothing as [E|Hlen];
    [contradiction|].
  unfold main_outcome. cbv zeta.
  destruct (Nat.ltb_spec (length live_tickers) THRESHOLD) as [Hlt|_]; [lia|].
  destruct live_tickers; [now elim Hne | reflexivity].
Qed.

Lemma main_live_written fs content :
  live_tickers <> [] ->
  utf8_encode (file_text (finalize live_tickers)) = Ok content ->
  main fs = File content.
Proof.
  intros Hne He. unfold main. rewrite (main_outcome_live fs Hne).
  unfold write_text. now rewrite He.
Qed.

Lemma main_twice fs : main (main fs) = main fs.
Proof.
  destruct live_tickers_all_or_nothing as [E|Hlen].
  - now rewrite (main_nothing_live (main fs) E).
  - assert (Hne : live_tickers <> []).
    { intros E. rewrite E in Hlen. simpl in Hlen. lia. }
    assert (H : forall f, main f = main NoFile).
    { intros f. unfold main.
      rewrite (main_outcome_live f Hne), (main_outcome_live NoFile Hne).
      unfold write_text. now destruct (utf8_encode _). }
    now rewrite (H (main fs)), (H fs).
Qed.

End Orchestrator.

(** ** Encoding the file *)

Lemma utf8_encode_ascii t : is_ascii t -> utf8_encode t = Ok t.
Proof.
  induction 1 as [|c r Hc Hr IH]; [reflexivity|].
  cbn [utf8_encode]. unfold utf8_encode_char.
  apply N.ltb_lt in Hc. rewrite Hc. cbn [bind]. now rewrite IH.
Qed.

Lemma file_text_ascii l : Forall is_ascii l -> is_ascii (file_text l).
Proof.
  intros H. destruct l as [|t0 l0] eqn:E.
  - repeat constructor.
  - rewrite <- E in *. rewrite join_lines by (rewrite E; discriminate).
    clear E. unfold is_ascii. induction H as [|t l Ht Hl IH]; [constructor|].
    cbn [flat_map]. apply Forall_app. split; [|exact IH].
    apply Forall_app. split; [exact Ht | repeat constructor].
Qed.

Lemma is_ascii_check l :
  forallb (forallb (fun c => (c <? 128)%N)) l = true -> Forall is_ascii l.
Proof.
  intros H. apply Forall_forall. intros t Ht. apply Forall_forall.
  intros c Hc. rewrite forallb_forall in H. specialize (H t Ht).
  rewrite forallb_forall in H. now apply N.ltb_lt, H.
Qed.

(** C2: whenever a run reaches the finalize step, that is whenever the live
    sources leave a list that is not empty, the file after the run holds the
    UTF-8 encoding of the file text of [finalize] of that list, whatever the
    file was before; for ASCII symbols these bytes are the characters of the
    text.  [finalize raw] holds exactly the symbols of [raw] that pass the
    validator and are not in the denylist, in strictly ascending order (so
    without duplicates); the text is every symbol followed by a newline; and
    for [AAPL, AAPL, SPY, MSFT] what is written is the two lines AAPL and
    MSFT. *)
Theorem finalize_output (ucd : CaseData) (raw : list str) :
  (forall (world : World) fs,
      live_tickers <> [] ->
      main_outcome fs = write_text (file_text (finalize live_tickers))
      /\ (forall content,
             utf8_encode (file_text (finalize live_tickers)) = Ok content ->
             main fs = File content)
      /\ (Forall is_ascii live_tickers ->
          main fs = File (file_text (finalize live_tickers))))
  /\ (forall (world : World) fs content,
        main_outcome fs = Written content ->
        utf8_encode (file_text (finalize live_tickers)) = Ok content)
  /\ (forall t, In t (finalize raw)
                <-> In t raw /\ is_valid_ticker t = true /\ ~ In t exclude)
  /\ StronglySorted str_lt (finalize raw)
  /\ (finalize raw <> [] ->
      file_text (finalize raw)
      = flat_map (fun t => t ++ newline) (finalize raw))
  /\ write_text
       (file_text
          (@finalize ucd_tables
             [lit "AAPL"; lit "AAPL"; lit "SPY"; lit "MSFT"]))
     = Written (lit "AAPL" ++ newline ++ lit "MSFT" ++ newline).
Proof.
  split.
  { intros world fs Hne. split; [now apply main_outcome_live|].
    split; [intros content; now apply main_live_written|].
    intros Ha. apply main_live_written; [exact Hne|].
    apply utf8_encode_ascii, file_text_ascii. now apply finalize_Forall. }
  split; [intros world fs content; apply main_writes_finalized|].
  split; [apply finalize_In|].
  split; [apply finalize_strict|].
  split; [apply join_lines|].
  vm_compute. reflexivity.
Qed.

Lemma finalize_output_witness :
  @live_tickers ucd_tables listing_world <> []
  /\ Forall is_ascii (@live_tickers ucd_tables listing_world)
  /\ @main ucd_tables listing_world two_line_file
     = File (file_text (@finalize ucd_tables
                          (@live_tickers ucd_tables listing_world)))
  /\ @finalize ucd_tables [lit "MSFT"; lit "AAPL"] <> []
  /\ file_text (@finalize ucd_tables [lit "MSFT"; lit "AAPL"])
     = lit "AAPL" ++ newline ++ lit "MSFT" ++ newline.
Proof.
  assert (Hne : @live_tickers ucd_tables listing_world <> [])
    by (vm_compute; discriminate).
  assert (Ha : Forall is_ascii (@live_tickers ucd_tables listing_world))
    by (apply is_ascii_check; vm_compute; reflexivity).
  assert (Hfin : @finalize ucd_tables [lit "MSFT"; lit "AAPL"] <> [])
    by (vm_compute; discriminate).
  destruct (finalize_output ucd_tables [lit "MSFT"; lit "AAPL"])
    as (Hmain & _ & _ & _ & Hlines & _).
  destruct (Hmain listing_world two_line_file Hne) as (_ & _ & Hascii).
  exact (conj Hne (conj Ha (conj (Hascii Ha) (conj Hfin (Hlines Hfin))))).
Defined.

(** C8: when both live strategies return fewer than 500 symbols, the run
    leaves the file as it was and does not reach the write step; with a
    prior file that holds valid tickers it ends in the preservation
    branch. *)
Theorem main_preserves_file (ucd : CaseData) (world : World) (fs : file_state) :
  length fetch_from_stockanalysis < THRESHOLD ->
  length fetch_from_finviz < THRESHOLD ->
  main fs = fs
  /\ (forall content, main_outcome fs <> Written content)
  /\ (forall e, main_outcome fs <> WriteRaised e)
  /\ (forall existing,
        load_existing fs = Ok existing -> existing <> [] ->
        main_outcome fs = Preserved existing).
Proof.
  intros HA HB.
  pose proof (live_tickers_below HA HB) as Hlive.
  pose proof (main_outcome_nothing_live fs Hlive) as E.
  split; [now apply main_nothing_live|].
  rewrite E.
  destruct (load_existing fs) as [[|t l]|e]; repeat split; try discriminate.
  - intros existing [= <-] H. now elim H.
  - now intros existing [= <-] _.
Qed.

Lemma main_preserves_file_witness :
  length (@fetch_from_stockanalysis ucd_tables offline_world) < THRESHOLD
  /\ length (@fetch_from_finviz ucd_tables offline_world) < THRESHOLD
  /\ @load_existing ucd_tables offline_world two_line_file
     = Ok [lit "AAPL"; lit "MSFT"]
  /\ @main ucd_tables offline_world two_line_file = two_line_file
  /\ @main_outcome ucd_tables offline_world two_line_file
     = Preserved [lit "AAPL"; lit "MSFT"].
Proof.
  assert (HA : length (@fetch_from_stockanalysis ucd_tables offline_world)
               < THRESHOLD) by (vm_compute; lia).
  assert (HB : length (@fetch_from_finviz ucd_tables offline_world)
               < THRESHOLD) by (vm_compute; lia).
  assert (HE : @load_existing ucd_tables offline_world two_line_file
               = Ok [lit "AAPL"; lit "MSFT"]) by reflexivity.
  destruct (@main_preserves_file ucd_tables offline_world two_line_file HA HB)
    as (Hsame & _ & _ & Hkept).
  refine (conj HA (conj HB (conj HE (conj Hsame (Hkept _ HE _))))).
  discriminate.
Defined.

(** C9: the file after a run is a function of the responses and of the file
    before it, and a second run on the same responses leaves the file of the
    first run as it is; [finalize] of a finalized list is that list.  On the
    listing of 600 symbols the first run writes a file and the second run
    writes the same file. *)
Theorem main_idempotent (ucd : CaseData) (world : World)
        (fs : file_state) (raw : list str) :
  main (main fs) = main fs
  /\ finalize (finalize raw) = finalize raw
  /\ (exists content,
        @main ucd_tables listing_world NoFile = File content
        /\ @main_outcome ucd_tables listing_world (File content)
           = Written content).
Proof.
  split; [apply main_twice|].
  split; [apply finalize_idempotent|].
  eexists. split; vm_compute; reflexivity.
Qed.


(** * Further properties of the code *)

(** ** Whitespace and the validator *)

Lemma lstrip_all_space s : lstrip s = [] <-> all_space s.
Proof.
  induction s as [|c r IH]; simpl.
  - split; [constructor | reflexivity].
  - destruct (cp_isspace c) eqn:E.
    + rewrite IH. split; [now constructor | now inversion 1].
    + split; [discriminate | inversion 1; congruence].
Qed.

Lemma lstrip_head s c r : lstrip s = c :: r -> cp_isspace c = false.
Proof.
  induction s as [|d s IH]; simpl; [discriminate|].
  destruct (cp_isspace d) eqn:E; [exact IH | now intros [= <- _]].
Qed.

Lemma lstrip_fixed c r : cp_isspace c = false -> lstrip (c :: r) = c :: r.
Proof. intros H. simpl. now rewrite H. Qed.

Lemma lstrip_idempotent s : lstrip (lstrip s) = lstrip s.
Proof.
  destruct (lstrip s) as [|c r] eqn:E; [reflexivity|].
  apply lstrip_fixed. eapply lstrip_head. exact E.
Qed.

Lemma lstrip_spaces_app ws s : all_space ws -> lstrip (ws ++ s) = lstrip s.
Proof.
  induction 1 as [|c r Hc Hr IH]; simpl; [reflexivity|]. now rewrite Hc.
Qed.

Lemma lstrip_app_keep s t : lstrip s <> [] -> lstrip (s ++ t) = lstrip s ++ t.
Proof.
  induction s as [|c r IH]; simpl; [now intros H; elim H|].
  destruct (cp_isspace c); [exact IH | reflexivity].
Qed.

Lemma rstrip_spaces_app s ws : all_space ws -> rstrip (s ++ ws) = rstrip s.
Proof.
  intros H. unfold rstrip. rewrite rev_app_distr.
  rewrite lstrip_spaces_app; [reflexivity|]. now apply Forall_rev.
Qed.

Lemma rstrip_idempotent s : rstrip (rstrip s) = rstrip s.
Proof. unfold rstrip. now rewrite rev_involutive, lstrip_idempotent. Qed.

Lemma rstrip_keeps_head c r :
  cp_isspace c = false -> rstrip (c :: r) = c :: rstrip r.
Proof.
  intros H. unfold rstrip. simpl.
  destruct (lstrip (rev r)) as [|d u] eqn:E.
  - apply lstrip_all_space in E.
    rewrite lstrip_spaces_app by exact E. simpl. now rewrite H.
  - rewrite lstrip_app_keep by congruence.
    rewrite E, rev_app_distr. reflexivity.
Qed.

Lemma strip_padded ws s ws' :
  all_space ws -> all_space ws' -> strip (ws ++ s ++ ws') = strip s.
Proof.
  intros H H'. unfold strip. rewrite lstrip_spaces_app by exact H.
  destruct (lstrip s) as [|c r] eqn:E.
  - apply lstrip_all_space in E.
    assert (Hall : all_space (s ++ ws')) by now apply Forall_app.
    apply lstrip_all_space in Hall. now rewrite Hall.
  - rewrite lstrip_app_keep by congruence.
    rewrite E. now apply rstrip_spaces_app.
Qed.

Lemma strip_idempotent s : strip (strip s) = strip s.
Proof.
  unfold strip at 2 3.
  destruct (lstrip s) as [|c r] eqn:E; [reflexivity|].
  pose proof (lstrip_head _ E) as Hc.
  rewrite rstrip_keeps_head by exact Hc.
  unfold strip. rewrite lstrip_fixed by exact Hc.
  now rewrite rstrip_keeps_head, rstrip_idempotent by exact Hc.
Qed.

Lemma lstrip_In c s : In c s -> In c (lstrip s) \/ cp_isspace c = true.
Proof.
  induction s as [|d r IH]; simpl; [contradiction|].
  destruct (cp_isspace d) eqn:E.
  - intros [<-|H]; [now right | now apply IH].
  - intros H. now left.
Qed.

Lemma linebreak_is_space c : cp_islinebreak c = true -> cp_isspace c = true.
Proof.
  unfold cp_islinebreak, cp_isspace.
  rewrite !orb_true_iff, !in_range_spec, !N.eqb_eq. lia.
Qed.

Lemma splitlines_from_line cur t rest :
  Forall (fun c => cp_islinebreak c = false) t ->
  splitlines_from cur (t ++ newline ++ rest)
  = (rev cur ++ t) :: splitlines_from [] rest.
Proof.
  intros H. revert cur. induction H as [|c t Hc Ht IH]; intros cur.
  - cbn [app newline splitlines_from].
    change (cp_islinebreak 10%N) with true. cbv iota.
    rewrite app_nil_r. destruct rest as [|d r]; [reflexivity|].
    change ((10 =? 13)%N) with false. reflexivity.
  - cbn [app splitlines_from]. rewrite Hc.
    change (t ++ 10%N :: rest) with (t ++ newline ++ rest).
    rewrite IH. cbn [rev]. now rewrite <- app_assoc.
Qed.

Lemma splitlines_lines l :
  Forall (Forall (fun c => cp_islinebreak c = false)) l ->
  splitlines (flat_map (fun t => t ++ newline) l) = l.
Proof.
  unfold splitlines. induction 1 as [|t l Ht Hl IH]; [reflexivity|].
  cbn [flat_map]. rewrite <- app_assoc, splitlines_from_line by exact Ht.
  now rewrite IH.
Qed.

Lemma splitlines_break c t cur :
  cp_islinebreak c = true -> c <> 13%N ->
  splitlines_from cur (c :: t) = rev cur :: splitlines_from [] t.
Proof.
  intros Hc Hn. cbn [splitlines_from]. rewrite Hc.
  destruct t as [|d r]; [reflexivity|].
  apply N.eqb_neq in Hn. now rewrite Hn.
Qed.

Lemma splitlines_cr t cur :
  splitlines_from cur (13%N :: t)
  = rev cur :: splitlines_from []
                 match t with
                 | d :: r => if (d =? 10)%N then r else t
                 | [] => []
                 end.
Proof.
  cbn [splitlines_from]. change (cp_islinebreak 13%N) with true. cbv iota.
  destruct t as [|d r]; [reflexivity|].
  change ((13 =? 13)%N) with true. cbn [andb]. now destruct (d =? 10)%N.
Qed.

(** Reading with translated newlines gives the same lines. *)
Lemma splitlines_universal n :
  forall s cur,
    length s <= n ->
    splitlines_from cur (universal_newlines s) = splitlines_from cur s.
Proof.
  induction n as [|n IH]; intros s cur Hlen.
  - destruct s; [reflexivity | simpl in Hlen; lia].
  - destruct s as [|c r]; [reflexivity|]. cbn [length] in Hlen.
    cbn [universal_newlines].
    destruct (N.eqb_spec c 13) as [->|Hc].
    + rewrite splitlines_cr. destruct r as [|d r'].
      * reflexivity.
      * cbn [length] in Hlen. destruct (d =? 10)%N;
          rewrite splitlines_break by (reflexivity || discriminate);
          f_equal; apply IH; cbn [length]; lia.
    + destruct (cp_islinebreak c) eqn:E.
      * rewrite !splitlines_break by assumption. f_equal. apply IH. lia.
      * cbn [splitlines_from]. rewrite E. apply IH. lia.
Qed.

Lemma flat_map_singletons {A : Type} (f : A -> list A) l :
  Forall (fun a => f a = [a]) l -> flat_map f l = l.
Proof.
  induction 1 as [|a l Ha Hl IH]; [reflexivity|].
  cbn [flat_map]. now rewrite Ha, IH.
Qed.

Section Loader.
Context {ucd : CaseData}.

Lemma valid_stripped_chars t :
  is_valid_ticker t = true -> strip t = t ->
  Forall (fun c => c = hyphen \/ cp_isalpha c = true) t.
Proof.
  intros Hv Hs. apply is_valid_ticker_shape in Hv.
  destruct Hv as (_ & Ha & _). rewrite Hs in Ha.
  rewrite Forall_forall in *. intros c Hc.
  destruct (N.eqb_spec c hyphen) as [E|E]; [now left|].
  right. apply Ha. unfold remove_hyphens. apply filter_In.
  split; [exact Hc|]. apply negb_true_iff. now apply N.eqb_neq.
Qed.

Lemma valid_nonempty t : is_valid_ticker t = true -> t <> [].
Proof. intros H ->. discriminate. Qed.

Lemma load_existing_line t :
  is_valid_ticker t = true -> strip t = t ->
  match strip t with
  | [] => []
  | stripped => if is_valid_ticker stripped then [stripped] else []
  end = [t].
Proof.
  intros Hv Hs. destruct t as [|c r]; [discriminate|].
  rewrite Hs. cbv iota zeta. now rewrite Hv.
Qed.

Lemma valid_lines_file_text l :
  (forall c, cp_isalpha c = true -> cp_isspace c = false) ->
  Forall (fun t => is_valid_ticker t = true /\ strip t = t) l ->
  valid_lines (file_text l) = l.
Proof.
  intros Hdb Hl. destruct l as [|t0 l0] eqn:El; [reflexivity|].
  rewrite <- El in *. rewrite join_lines by (rewrite El; discriminate).
  unfold valid_lines. rewrite splitlines_lines.
  - apply flat_map_singletons. eapply Forall_impl; [|exact Hl].
    intros t [Hv Hs]. exact (load_existing_line Hv Hs).
  - eapply Forall_impl; [|exact Hl]. intros t [Hv Hs].
    eapply Forall_impl; [|exact (valid_stripped_chars Hv Hs)].
    intros c [->|Ha]; [reflexivity|].
    destruct (cp_islinebreak c) eqn:E; [|reflexivity].
    apply linebreak_is_space in E. rewrite (Hdb c Ha) in E. discriminate.
Qed.

Lemma valid_lines_In file_content t :
  In t (valid_lines file_content) ->
  exists line,
    In line (splitlines file_content)
    /\ t = strip line /\ is_valid_ticker t = true /\ t <> [].
Proof.
  unfold valid_lines. intros H. apply in_flat_map in H.
  destruct H as (line & Hl & Ht). exists line.
  destruct (strip line) as [|c r] eqn:E; [contradiction|].
  destruct (is_valid_ticker (c :: r)) eqn:Ev; [|contradiction].
  destruct Ht as [<-|[]]. repeat split; try assumption. discriminate.
Qed.

Lemma valid_lines_universal file_content :
  valid_lines (universal_newlines file_content) = valid_lines file_content.
Proof.
  unfold valid_lines, splitlines.
  now rewrite (@splitlines_universal (length file_content) file_content []
                 (le_n _)).
Qed.

Lemma load_existing_In {world : World} fs entries t :
  load_existing fs = Ok entries -> In t entries ->
  exists content file_content line,
    fs = File content /\ locale_decode content = Ok file_content
    /\ In line (splitlines file_content)
    /\ t = strip line /\ is_valid_ticker t = true /\ t <> [].
Proof.
  destruct fs as [|content]; [now intros [= <-]|].
  unfold load_existing, read_text, bind.
  destruct (locale_decode content) as [file_content|] eqn:Ed; [|discriminate].
  intros [= <-] Ht. rewrite valid_lines_universal in Ht.
  destruct (valid_lines_In _ _ Ht) as (line & Hl & H).
  now exists content, file_content, line.
Qed.

End Loader.

(** X3: whitespace around a string does not change the validator's
    answer. *)
Theorem is_valid_ticker_padding (ucd : CaseData) (ws t ws' : str) :
  all_space ws -> all_space ws' ->
  is_valid_ticker (ws ++ t ++ ws') = is_valid_ticker t.
Proof.
  intros H H'. unfold is_valid_ticker. now rewrite strip_padded.
Qed.

Lemma is_valid_ticker_padding_witness :
  all_space [32%N; 9%N] /\ all_space [13%N; 10%N]
  /\ @is_valid_ticker ucd_tables ([32%N; 9%N] ++ lit "BRK-B" ++ [13%N; 10%N])
     = @is_valid_ticker ucd_tables (lit "BRK-B").
Proof.
  assert (H : all_space [32%N; 9%N]) by (repeat constructor).
  assert (H' : all_space [13%N; 10%N]) by (repeat constructor).
  exact (conj H (conj H'
           (@is_valid_ticker_padding ucd_tables _ (lit "BRK-B") _ H H'))).
Defined.

(** X1: from a file the fallback loader returns only stripped lines of
    its decoded content: each entry is [strip] of a line, is not empty,
    passes the validator and has no whitespace left around it. *)
Theorem load_existing_entries (ucd : CaseData) (world : World)
        (fs : file_state) (entries : list str) (t : str) :
  load_existing fs = Ok entries -> In t entries ->
  (exists content file_content line,
      fs = File content /\ locale_decode content = Ok file_content
      /\ In line (splitlines file_content) /\ t = strip line)
  /\ is_valid_ticker t = true /\ strip t = t /\ t <> [].
Proof.
  intros Hload H. destruct (@load_existing_In ucd world fs entries t Hload H)
    as (content & file_content & line & Hfs & Hd & Hl & Ht & Hv & Hne).
  split; [now exists content, file_content, line|].
  repeat split; try assumption. rewrite Ht. apply strip_idempotent.
Qed.

Lemma load_existing_entries_witness :
  @load_existing ucd_tables offline_world
    (File (lit " AAPL " ++ [13%N; 10%N] ++ lit "msft"
           ++ [10%N; 10%N] ++ lit "  MSFT"))
  = Ok [lit "AAPL"; lit "MSFT"]
  /\ In (lit "MSFT") [lit "AAPL"; lit "MSFT"]
  /\ @is_valid_ticker ucd_tables (lit "MSFT") = true
  /\ @strip (lit "MSFT") = lit "MSFT".
Proof.
  assert (Hload : @load_existing ucd_tables offline_world
                    (File (lit " AAPL " ++ [13%N; 10%N] ++ lit "msft"
                           ++ [10%N; 10%N] ++ lit "  MSFT"))
                  = Ok [lit "AAPL"; lit "MSFT"]) by reflexivity.
  assert (H : In (lit "MSFT") [lit "AAPL"; lit "MSFT"])
    by (right; left; reflexivity).
  destruct (@load_existing_entries ucd_tables offline_world _ _ _ Hload H)
    as (_ & Hv & Hs & _).
  exact (conj Hload (conj H (conj Hv Hs))).
Defined.

Lemma ascii_decode_ascii content :
  is_ascii content -> ascii_decode content = Ok content.
Proof.
  intros H. unfold ascii_decode.
  replace (forallb (fun b => (b <? 128)%N) content) with true; [reflexivity|].
  symmetry. apply forallb_forall. intros b Hb.
  unfold is_ascii in H. rewrite Forall_forall in H. now apply N.ltb_lt, H.
Qed.

(** X2: what [main] writes, the fallback loader reads back, for ASCII
    symbols in a locale whose encoding extends ASCII.  When no letter of the
    character database is whitespace, the locale's encoding decodes ASCII
    bytes as themselves, and the collected symbols are ASCII and have no
    whitespace around them, the text of [finalize raw] is written as its own
    characters and loading that file gives [finalize raw]. *)
Theorem load_existing_reads_written (ucd : CaseData) (world : World)
        (raw : list str) :
  (forall c, cp_isalpha c = true -> cp_isspace c = false) ->
  (forall content, is_ascii content -> locale_decode content = Ok content) ->
  Forall is_ascii raw ->
  Forall (fun t => strip t = t) raw ->
  write_text (file_text (finalize raw)) = Written (file_text (finalize raw))
  /\ load_existing (File (file_text (finalize raw))) = Ok (finalize raw).
Proof.
  intros Hdb Hlocale Hascii Hraw.
  assert (Hfin : Forall (fun t => is_valid_ticker t = true /\ strip t = t)
                        (finalize raw)).
  { apply Forall_forall. intros t Ht. apply finalize_In in Ht.
    destruct Ht as (Hin & Hv & _). split; [exact Hv|].
    rewrite Forall_forall in Hraw. now apply Hraw. }
  assert (Htext : is_ascii (file_text (finalize raw)))
    by now apply file_text_ascii, finalize_Forall.
  split.
  - unfold write_text. now rewrite utf8_encode_ascii.
  - unfold load_existing, read_text, bind.
    rewrite (Hlocale _ Htext), valid_lines_universal.
    now rewrite valid_lines_file_text.
Qed.

Lemma letters_not_space c :
  @cp_isalpha ucd_tables c = true -> cp_isspace c = false.
Proof.
  simpl. unfold is_cjk, cp_isspace.
  rewrite !orb_true_iff, !orb_false_iff, !in_range_spec, !in_range_false,
    !N.eqb_neq. lia.
Qed.

Lemma load_existing_reads_written_witness :
  Forall is_ascii [lit "MSFT"; lit "SPY"; lit "AAPL"]
  /\ Forall (fun t => strip t = t) [lit "MSFT"; lit "SPY"; lit "AAPL"]
  /\ @load_existing ucd_tables offline_world
       (File (lit "AAPL" ++ newline ++ lit "MSFT" ++ newline))
     = Ok [lit "AAPL"; lit "MSFT"].
Proof.
  assert (Ha : Forall is_ascii [lit "MSFT"; lit "SPY"; lit "AAPL"])
    by (apply is_ascii_check; reflexivity).
  assert (H : Forall (fun t => strip t = t)
                     [lit "MSFT"; lit "SPY"; lit "AAPL"])
    by (repeat constructor).
  exact (conj Ha (conj H
           (proj2 (@load_existing_reads_written ucd_tables offline_world _
                     letters_not_space ascii_decode_ascii Ha H)))).
Defined.


(** ** Page arithmetic and the requests of strategy B *)

(** X4: with at least one row a page, the last page asked for is at most
    110; it is at least 1 when a stock is announced; and when it is below
    the cap of 110, the pages up to it cover the announced total. *)
Theorem max_page_of_bounds (total rows : Z) :
  (1 <= rows)%Z ->
  (max_page_of total rows <= MAX_PAGES)%Z
  /\ (1 <= total -> 1 <= max_page_of total rows)%Z
  /\ (max_page_of total rows < MAX_PAGES ->
      total <= max_page_of total rows * rows)%Z.
Proof.
  intros Hr. unfold max_page_of, MAX_PAGES.
  pose proof (Z.mul_succ_div_gt (total - 1) rows ltac:(lia)) as Hgt.
  split; [lia|]. split.
  - intros Ht. pose proof (Z.div_pos (total - 1) rows ltac:(lia) ltac:(lia)).
    lia.
  - intros Hlt. rewrite Z.min_l in * by lia. lia.
Qed.

Lemma py_range_length lo hi : length (py_range lo hi) = Z.to_nat (hi - lo).
Proof. unfold py_range. now rewrite length_map, length_seq. Qed.

Lemma py_range_NoDup lo hi : NoDup (py_range lo hi).
Proof.
  unfold py_range. generalize (Z.to_nat (hi - lo)) as n. intros n.
  assert (H : forall s, NoDup (map (fun i => (lo + Z.of_nat i)%Z) (seq s n))).
  { induction n as [|n IH]; intros s; cbn [seq map]; constructor.
    - rewrite in_map_iff. intros (i & Hi & Hin). apply in_seq in Hin. lia.
    - apply IH. }
  apply H.
Qed.

Section Requests.
Context {ucd : CaseData} {world : World}.

Lemma finviz_page_tickers_valid r l :
  finviz_page_tickers r = Ok l ->
  Forall (fun t => is_valid_ticker t = true) l.
Proof.
  unfold finviz_page_tickers, bind.
  destruct (finviz_get r) as [page|]; [|discriminate].
  intros [= <-]. apply parse_finviz_page_valid.
Qed.

(** The loop keeps validated symbols validated. *)
Lemma finviz_pages_valid rows pages :
  forall tickers requested,
    Forall (fun t => is_valid_ticker t = true) tickers ->
    Forall (fun t => is_valid_ticker t = true)
           (fst (finviz_pages pages rows tickers requested)).
Proof.
  induction pages as [|p pages IH]; intros tickers requested Ht; [exact Ht|].
  cbn [finviz_pages].
  destruct (finviz_page_tickers (r_start_of p rows)) as [[|t l]|] eqn:E.
  - exact Ht.
  - apply IH. apply Forall_app. split; [exact Ht|].
    exact (finviz_page_tickers_valid _ E).
  - now apply IH.
Qed.

(** The loop requests a prefix of its pages, each once. *)
Lemma finviz_pages_requested rows pages :
  forall tickers requested,
    exists asked rest,
      pages = asked ++ rest
      /\ snd (finviz_pages pages rows tickers requested)
         = requested ++ map (fun i => r_start_of i rows) asked.
Proof.
  induction pages as [|p pages IH]; intros tickers requested.
  - exists [], []. cbn. now rewrite app_nil_r.
  - cbn [finviz_pages].
    destruct (finviz_page_tickers (r_start_of p rows)) as [[|t l]|].
    + exists [p], pages. split; reflexivity.
    + destruct (IH (tickers ++ t :: l) (requested ++ [r_start_of p rows]))
        as (asked & rest & -> & ->).
      exists (p :: asked), rest. split; [reflexivity|].
      now rewrite <- app_assoc.
    + destruct (IH tickers (requested ++ [r_start_of p rows]))
        as (asked & rest & -> & ->).
      exists (p :: asked), rest. split; [reflexivity|].
      now rewrite <- app_assoc.
Qed.

(** Without an empty page the loop asks for every page, and a page that
    raises adds nothing. *)
Lemma finviz_pages_all rows pages :
  forall tickers requested,
    (forall i, In i pages -> finviz_page_tickers (r_start_of i rows) <> Ok []) ->
    finviz_pages pages rows tickers requested
    = (tickers ++ flat_map (symbols_of_page rows) pages,
       requested ++ map (fun i => r_start_of i rows) pages).
Proof.
  induction pages as [|p pages IH]; intros tickers requested H.
  - cbn. now rewrite !app_nil_r.
  - cbn [finviz_pages flat_map map].
    pose proof (H p (or_introl eq_refl)) as Hp.
    unfold symbols_of_page at 1.
    destruct (finviz_page_tickers (r_start_of p rows)) as [[|t l]|] eqn:E.
    + now elim Hp.
    + rewrite IH by (intros i Hi; apply H; now right).
      cbn [try_except]. now rewrite <- !app_assoc.
    + rewrite IH by (intros i Hi; apply H; now right).
      cbn [try_except app]. now rewrite <- !app_assoc.
Qed.

End Requests.

Lemma max_page_of_bounds_witness :
  (1 <= 20)%Z
  /\ max_page_of 2000 20 = 100%Z
  /\ (2000 <= max_page_of 2000 20 * 20)%Z
  /\ (max_page_of 5000 20 <= MAX_PAGES)%Z.
Proof.
  assert (H : (1 <= 20)%Z) by lia.
  destruct (@max_page_of_bounds 2000 20 H) as (_ & _ & Hcover).
  destruct (@max_page_of_bounds 5000 20 H) as (Hcap & _).
  refine (conj H (conj eq_refl (conj (Hcover _) Hcap))).
  vm_compute. reflexivity.
Defined.

Lemma r_start_of_NoDup rows l :
  (1 <= rows)%Z -> NoDup l -> NoDup (map (fun i => r_start_of i rows) l).
Proof.
  intros Hr. induction 1 as [|i l Hi Hl IH]; cbn [map]; constructor.
  - rewrite in_map_iff. intros (j & Hj & Hin).
    unfold r_start_of in Hj. assert (j = i) by nia. now subst.
  - exact IH.
Qed.

Section RequestBounds.
Context {ucd : CaseData} {world : World}.

Lemma finviz_run_requests :
  snd finviz_run = [1%Z]
  \/ exists page total asked rest,
      let rows := Z.of_nat (length (_parse_finviz_page page)) in
      (1 <= rows)%Z
      /\ py_range 2 (max_page_of total rows + 1) = asked ++ rest
      /\ snd finviz_run = 1%Z :: map (fun i => r_start_of i rows) asked.
Proof.
  unfold finviz_run.
  destruct (finviz_get 1) as [page|]; [|now left].
  destruct (total_of page) as [total|]; [|now left].
  cbv zeta. destruct (_parse_finviz_page page) as [|t l] eqn:Ep; [now left|].
  right.
  destruct (finviz_pages_requested
              (Z.of_nat (length (t :: l)))
              (py_range 2 (max_page_of total (Z.of_nat (length (t :: l))) + 1))
              (t :: l) [1%Z]) as (asked & rest & Hsplit & Hreq).
  exists page, total, asked, rest. rewrite Ep. cbv zeta.
  split; [cbn [length]; lia|]. split; [exact Hsplit|].
  destruct (finviz_pages _ _ _ _) as [tickers requested].
  cbn [snd] in Hreq. subst requested.
  now destruct (THRESHOLD <? length (dict_fromkeys tickers)).
Qed.

End RequestBounds.

(** X5: strategy B asks for offset 1 first, never asks for the same offset
    twice and never makes more than 110 requests. *)
Theorem finviz_requests_bounded (ucd : CaseData) (world : World) :
  (exists later, snd finviz_run = 1%Z :: later)
  /\ NoDup (snd finviz_run)
  /\ length (snd finviz_run) <= 110.
Proof.
  destruct finviz_run_requests as [E|(page & total & asked & rest & H)].
  - rewrite E. split; [now exists []|]. split; [|simpl; lia].
    repeat constructor. intros [].
  - cbv zeta in H. destruct H as (Hrows & Hsplit & E). rewrite E.
    set (rows := Z.of_nat (length (_parse_finviz_page page))) in *.
    assert (Hin : forall i, In i asked -> (2 <= i)%Z).
    { intros i Hi.
      assert (Hr : In i (py_range 2 (max_page_of total rows + 1)))
        by (rewrite Hsplit; apply in_or_app; now left).
      apply py_range_In in Hr. lia. }
    split; [now eexists|]. split.
    + constructor.
      * rewrite in_map_iff. intros (i & Hi & Hi').
        apply Hin in Hi'. unfold r_start_of in Hi. nia.
      * apply r_start_of_NoDup; [exact Hrows|].
        eapply NoDup_app_remove_r. rewrite <- Hsplit. apply py_range_NoDup.
    + cbn [length]. rewrite length_map.
      assert (Hlen : length asked + length rest
                     = Z.to_nat (max_page_of total rows + 1 - 2))
        by (rewrite <- length_app, <- Hsplit; apply py_range_length).
      unfold max_page_of, MAX_PAGES in Hlen. lia.
Qed.

(** X6: strategy B returns validated symbols without duplicates, none of
    them or more than 500, although one page may name a symbol twice. *)
Theorem finviz_result_shape (ucd : CaseData) (world : World) :
  NoDup fetch_from_finviz
  /\ Forall (fun t => is_valid_ticker t = true) fetch_from_finviz
  /\ (fetch_from_finviz = [] \/ THRESHOLD < length fetch_from_finviz).
Proof.
  split; [|split; [|apply finviz_all_or_nothing]].
  - unfold fetch_from_finviz, finviz_run.
    destruct (finviz_get 1) as [page|]; [|constructor].
    destruct (total_of page) as [total|]; [|constructor].
    cbv zeta. destruct (_parse_finviz_page page); [constructor|].
    destruct (finviz_pages _ _ _ _) as [tickers requested].
    destruct (THRESHOLD <? _); [apply dict_fromkeys_NoDup | constructor].
  - unfold fetch_from_finviz, finviz_run.
    destruct (finviz_get 1) as [page|]; [|constructor].
    destruct (total_of page) as [total|]; [|constructor].
    cbv zeta. pose proof (parse_finviz_page_valid page) as Hp.
    destruct (_parse_finviz_page page) as [|t l]; [constructor|].
    pose proof (finviz_pages_valid (Z.of_nat (length (t :: l)))
                  (py_range 2 (max_page_of total
                                           (Z.of_nat (length (t :: l))) + 1))
                  [1%Z] Hp) as Hv.
    destruct (finviz_pages _ _ _ _) as [tickers requested]. cbn [fst] in Hv.
    destruct (THRESHOLD <? _); [|constructor]. cbn [fst].
    apply Forall_forall. intros x Hx. rewrite dict_fromkeys_In in Hx.
    rewrite Forall_forall in Hv. now apply Hv.
Qed.

(** X7: when page 1 is fetched, its stock count converts and it gives
    symbols, and no later page up to the last one is empty, every page is
    asked for; a page that raises is skipped and adds nothing, the loop goes
    on after it, and the result is the deduplicated symbols of all pages if
    they are more than 500, the empty list otherwise.  When the stock count
    of page 1 does not convert, the strategy ends with the empty list after
    its first request. *)
Theorem finviz_skips_failed_pages (ucd : CaseData) (world : World)
        (page : soup) :
  finviz_get 1 = Ok page ->
  (forall e, total_of page = Raised e ->
             fetch_from_finviz = [] /\ snd finviz_run = [1%Z])
  /\ (forall total,
        total_of page = Ok total -> _parse_finviz_page page <> [] ->
        let rows := Z.of_nat (length (_parse_finviz_page page)) in
        let last := max_page_of total rows in
        (forall i, (2 <= i <= last)%Z ->
                   finviz_page_tickers (r_start_of i rows) <> Ok []) ->
        let cumulative :=
          dict_fromkeys
            (_parse_finviz_page page
             ++ flat_map (symbols_of_page rows) (py_range 2 (last + 1))) in
        fetch_from_finviz
        = (if THRESHOLD <? length cumulative then cumulative else [])
        /\ snd finviz_run
           = 1%Z :: map (fun i => r_start_of i rows) (py_range 2 (last + 1))
        /\ (forall i e, finviz_page_tickers (r_start_of i rows) = Raised e ->
                        symbols_of_page rows i = [])).
Proof.
  intros Hget. split.
  { intros e He. unfold fetch_from_finviz.
    now rewrite (finviz_count_raises Hget He). }
  intros total Htotal Hne rows last Hall cumulative.
  assert (Hrun : finviz_run
                 = (if THRESHOLD <? length cumulative then cumulative else [],
                    1%Z :: map (fun i => r_start_of i rows)
                               (py_range 2 (last + 1)))).
  { unfold finviz_run. rewrite Hget, Htotal. cbv zeta.
    destruct (_parse_finviz_page page) as [|t l] eqn:Ep; [now elim Hne|].
    fold rows. fold last. rewrite finviz_pages_all
      by (intros i Hi; apply Hall; apply py_range_In in Hi; lia).
    fold cumulative. now destruct (THRESHOLD <? length cumulative). }
  split; [|split].
  - unfold fetch_from_finviz. now rewrite Hrun.
  - now rewrite Hrun.
  - intros i e E. unfold symbols_of_page. now rewrite E.
Qed.

Lemma finviz_skips_failed_pages_witness :
  (@total_of overlong_count_world overlong_first_page = Raised ValueError
   /\ @fetch_from_finviz ucd_tables overlong_count_world = []
   /\ snd (@finviz_run ucd_tables overlong_count_world) = [1%Z])
  /\ @finviz_page_tickers ucd_tables flaky_world 6 = Raised ReadTimeout
  /\ @total_of flaky_world flaky_first_page = Ok 12%Z
  /\ snd (@finviz_run ucd_tables flaky_world) = [1%Z; 6%Z; 11%Z]
  /\ @fetch_from_finviz ucd_tables flaky_world = []
  /\ dict_fromkeys
       (@_parse_finviz_page ucd_tables flaky_first_page
        ++ flat_map (@symbols_of_page ucd_tables flaky_world 5)
                    (py_range 2 4))
     = [lit "AAA"; lit "BBB"; lit "CCC"; lit "DDD"; lit "EEE";
        lit "KKK"; lit "LLL"].
Proof.
  split.
  { assert (He : @total_of overlong_count_world overlong_first_page
                 = Raised ValueError) by (vm_compute; reflexivity).
    pose proof (@finviz_skips_failed_pages ucd_tables overlong_count_world
                  overlong_first_page eq_refl) as [Hraise _].
    exact (conj He (Hraise ValueError He)). }
  split; [reflexivity|]. split; [reflexivity|].
  pose proof (@finviz_skips_failed_pages ucd_tables flaky_world
                flaky_first_page eq_refl) as [_ H].
  specialize (H 12%Z eq_refl). cbv zeta in H.
  destruct H as (Hres & Hreq & _).
  - vm_compute. discriminate.
  - intros i Hi. change (2 <= i <= 3)%Z in Hi.
    assert (i = 2 \/ i = 3)%Z as [-> | ->] by lia; vm_compute; discriminate.
  - split; [exact Hreq|]. split; [exact Hres|]. vm_compute. reflexivity.
Defined.

(** ** Strategy A *)

Section StrategyA.
Context {ucd : CaseData} {world : World}.

Lemma stockanalysis_html_shape resp l :
  stockanalysis_html resp = Ok l ->
  NoDup l /\ Forall (fun t => is_valid_ticker t = true) l
  /\ (l = [] \/ THRESHOLD < length l).
Proof.
  unfold stockanalysis_html, bind.
  destruct (BeautifulSoup (text resp)) as [page|]; [|discriminate].
  cbv zeta.
  destruct (THRESHOLD <? length _) eqn:E; intros [= <-].
  - split; [apply dict_fromkeys_NoDup|]. split.
    + apply Forall_forall. intros t Ht. rewrite dict_fromkeys_In in Ht.
      pose proof (keep_valid_upper_valid (stocks_anchor_texts page)) as Hv.
      rewrite Forall_forall in Hv. now apply Hv.
    + right. now apply Nat.ltb_lt in E.
  - split; [constructor|]. split; [constructor | now left].
Qed.

Lemma stockanalysis_bad_status resp :
  requests_get StockanalysisList = Ok resp -> status_ok resp = false ->
  fetch_from_stockanalysis = [].
Proof.
  intros Hget Hs.
  unfold fetch_from_stockanalysis, stockanalysis_try, bind, raise_for_status.
  now rewrite Hget, Hs.
Qed.

Lemma stockanalysis_bad_json resp payload e :
  requests_get StockanalysisList = Ok resp -> status_ok resp = true ->
  search_next_data (text resp) = Some payload ->
  json_loads payload = Raised e ->
  fetch_from_stockanalysis = [].
Proof.
  intros Hget Hs Hp Hj.
  unfold fetch_from_stockanalysis, stockanalysis_try, bind, raise_for_status,
    stockanalysis_json, bind.
  now rewrite Hget, Hs, Hp, Hj.
Qed.

Lemma stockanalysis_no_script resp :
  requests_get StockanalysisList = Ok resp -> status_ok resp = true ->
  search_next_data (text resp) = None ->
  fetch_from_stockanalysis
  = try_except (stockanalysis_html resp) (fun _ => []).
Proof.
  intros Hget Hs Hp.
  unfold fetch_from_stockanalysis, stockanalysis_try, bind, raise_for_status,
    stockanalysis_json.
  now rewrite Hget, Hs, Hp.
Qed.

End StrategyA.

(** X8: strategy A returns nothing or more than 500 entries; what its
    anchor path returns is free of duplicates and validated. *)
Theorem stockanalysis_result_shape (ucd : CaseData) (world : World)
        (resp : response) (l : list str) :
  (fetch_from_stockanalysis = []
   \/ THRESHOLD < length fetch_from_stockanalysis)
  /\ (stockanalysis_html resp = Ok l ->
      NoDup l /\ Forall (fun t => is_valid_ticker t = true) l
      /\ (l = [] \/ THRESHOLD < length l)).
Proof.
  split; [apply stockanalysis_all_or_nothing | apply stockanalysis_html_shape].
Qed.

Lemma stockanalysis_result_shape_witness :
  @stockanalysis_html ucd_tables broken_json_world
    (served_page anchors_html)
  = Ok (map symbol_number (seq 0 600))
  /\ NoDup (map symbol_number (seq 0 600))
  /\ Forall (fun t => @is_valid_ticker ucd_tables t = true)
            (map symbol_number (seq 0 600)).
Proof.
  assert (H : @stockanalysis_html ucd_tables broken_json_world
                (served_page anchors_html)
              = Ok (map symbol_number (seq 0 600)))
    by (vm_compute; reflexivity).
  destruct (@stockanalysis_result_shape ucd_tables broken_json_world
              (served_page anchors_html)
              (map symbol_number (seq 0 600)))
    as (_ & Hshape).
  destruct (Hshape H) as (Hn & Hv & _).
  exact (conj H (conj Hn Hv)).
Defined.

(** X9: strategy A gives the empty list when the request raises, when the
    status is an error, and when the script block is found but is not JSON:
    the anchor path is then not tried, whatever it would give.  Without a
    script block the result is that of the anchor path. *)
Theorem stockanalysis_failures (ucd : CaseData) (world : World)
        (resp : response) :
  (forall e, requests_get StockanalysisList = Raised e ->
             fetch_from_stockanalysis = [])
  /\ (requests_get StockanalysisList = Ok resp ->
      (status_ok resp = false -> fetch_from_stockanalysis = [])
      /\ (status_ok resp = true ->
          (forall payload e,
              search_next_data (text resp) = Some payload ->
              json_loads payload = Raised e ->
              fetch_from_stockanalysis = [])
          /\ (search_next_data (text resp) = None ->
              fetch_from_stockanalysis
              = try_except (stockanalysis_html resp) (fun _ => [])))).
Proof.
  split.
  - intros e He. unfold fetch_from_stockanalysis, stockanalysis_try, bind.
    now rewrite He.
  - intros Hget. split; [now apply stockanalysis_bad_status|].
    intros Hs. split.
    + intros payload e. now apply stockanalysis_bad_json.
    + now apply stockanalysis_no_script.
Qed.

Lemma stockanalysis_failures_witness :
  @fetch_from_stockanalysis ucd_tables offline_world = []
  /\ @fetch_from_stockanalysis ucd_tables broken_json_world = []
  /\ length (try_except
               (@stockanalysis_html ucd_tables broken_json_world
                  (served_page anchors_html))
               (fun _ => [])) = 600
  /\ @fetch_from_stockanalysis ucd_tables blank_world
     = try_except (@stockanalysis_html ucd_tables blank_world
                     (served_page [])) (fun _ => []).
Proof.
  split.
  { destruct (@stockanalysis_failures ucd_tables offline_world
                (served_page [])) as (Hraise & _).
    apply (Hraise ConnectionError). reflexivity. }
  split.
  { destruct (@stockanalysis_failures ucd_tables broken_json_world
                (served_page anchors_html)) as (_ & Hok).
    destruct (Hok eq_refl) as (_ & Hgood).
    destruct (Hgood eq_refl) as (Hjson & _).
    apply (Hjson (lit "{") JSONDecodeError); reflexivity. }
  split; [vm_compute; reflexivity|].
  destruct (@stockanalysis_failures ucd_tables blank_world
              (served_page [])) as (_ & Hok).
  destruct (Hok eq_refl) as (_ & Hgood).
  destruct (Hgood eq_refl) as (_ & Hnone).
  apply Hnone. reflexivity.
Defined.

(** ** The JSON walk returns only what it validated *)

Lemma json_induction (P : json -> Prop) :
  P JNull -> (forall b, P (JBool b)) -> (forall z, P (JInt z)) ->
  (forall m e, P (JFloat m e)) -> (forall s, P (JStr s)) ->
  (forall items, Forall P items -> P (JList items)) ->
  (forall kvs, Forall (fun kv => P (snd kv)) kvs -> P (JDict kvs)) ->
  forall obj, P obj.
Proof.
  intros Hn Hb Hi Hf Hs Hl Hd. fix IH 1.
  intros [ | b | z | m e | s | items | kvs].
  - exact Hn.
  - apply Hb.
  - apply Hi.
  - apply Hf.
  - apply Hs.
  - apply Hl. revert items. fix IHl 1.
    intros [|a r]; constructor; [apply IH | apply IHl].
  - apply Hd. revert kvs. fix IHl 1.
    intros [|[k v] r]; constructor; [apply IH | apply IHl].
Qed.

Section ExtractorSound.
Context {ucd : CaseData}.

Lemma key_matches_sound kvs t :
  In t (key_matches kvs) ->
  exists key val,
    In key candidate_keys /\ dict_get key kvs = Some (JStr val)
    /\ is_valid_ticker val = true /\ t = upper val.
Proof.
  unfold key_matches. intros H. apply in_flat_map in H.
  destruct H as (key & Hk & Ht). exists key.
  destruct (dict_get key kvs) as [[| | | |val| |]|]; try contradiction.
  destruct (is_valid_ticker val) eqn:Ev; [|contradiction].
  destruct Ht as [<-|[]]. now exists val.
Qed.

Lemma extract_sound obj :
  forall depth t,
    In t (_extract_tickers_from_json obj depth) ->
    exists val, is_valid_ticker val = true /\ t = upper val.
Proof.
  induction obj using json_induction; intros depth t Ht;
    try (simpl in Ht; destruct (depth >? MAX_DEPTH)%Z; contradiction).
  - destruct (Z.le_gt_cases depth MAX_DEPTH) as [Hd|Hd];
      [|rewrite extract_beyond_cap in Ht by lia; contradiction].
    rewrite extract_list in Ht by exact Hd.
    apply in_flat_map in Ht. destruct Ht as (item & Hi & Ht).
    rewrite Forall_forall in H. exact (H item Hi _ _ Ht).
  - destruct (Z.le_gt_cases depth MAX_DEPTH) as [Hd|Hd];
      [|rewrite extract_beyond_cap in Ht by lia; contradiction].
    rewrite extract_dict in Ht by exact Hd.
    apply in_app_or in Ht. destruct Ht as [Ht|Ht].
    + destruct (key_matches_sound _ _ Ht) as (key & val & _ & _ & Hv & E).
      now exists val.
    + apply in_flat_map in Ht. destruct Ht as (kv & Hi & Ht).
      rewrite Forall_forall in H. exact (H kv Hi _ _ Ht).
Qed.

End ExtractorSound.

(** X10: every symbol the JSON walk returns, at any depth and from any
    value, is the uppercase form of a string that passed the validator as
    it stood. *)
Theorem extract_returns_validated (ucd : CaseData) (obj : json) (depth : Z)
        (t : str) :
  In t (_extract_tickers_from_json obj depth) ->
  exists val, is_valid_ticker val = true /\ t = upper val.
Proof. apply extract_sound. Qed.

Lemma extract_returns_validated_witness :
  In (lit "MSFT")
     (@_extract_tickers_from_json ucd_tables (JDict multi_key_object) 0)
  /\ exists val, @is_valid_ticker ucd_tables val = true
                 /\ lit "MSFT" = @upper ucd_tables val.
Proof.
  assert (H : In (lit "MSFT")
                 (@_extract_tickers_from_json ucd_tables
                    (JDict multi_key_object) 0))
    by (vm_compute; tauto).
  exact (conj H (@extract_returns_validated ucd_tables _ _ _ H)).
Defined.

(** ** The orchestrator and the prior file *)

(** X11: when a live source delivers, the run ends in the write of the
    finalized live list and the file after it holds the encoding of that
    text, whatever the file was before (and whether there was one); when no
    live source delivers, the file is what it was. *)
Theorem main_decided_by_live_sources (ucd : CaseData) (world : World)
        (fs : file_state) :
  (live_tickers <> [] ->
   main_outcome fs = write_text (file_text (finalize live_tickers))
   /\ main fs = main NoFile
   /\ (forall content,
          utf8_encode (file_text (finalize live_tickers)) = Ok content ->
          main_outcome fs = Written content /\ main fs = File content)
   /\ (Forall is_ascii live_tickers ->
       main_outcome fs = Written (file_text (finalize live_tickers))
       /\ main fs = File (file_text (finalize live_tickers))))
  /\ (live_tickers = [] ->
      main fs = fs
      /\ (forall content, main_outcome fs <> Written content)
      /\ (forall e, main_outcome fs <> WriteRaised e)).
Proof.
  split.
  - intros Hne. pose proof (main_outcome_live fs Hne) as Hout.
    assert (Henc : forall content,
               utf8_encode (file_text (finalize live_tickers)) = Ok content ->
               main_outcome fs = Written content /\ main fs = File content).
    { intros content He. split; [|now apply main_live_written].
      rewrite Hout. unfold write_text. now rewrite He. }
    split; [exact Hout|]. split; [|split; [exact Henc|]].
    + unfold main. rewrite Hout, (main_outcome_live NoFile Hne).
      unfold write_text. now destruct (utf8_encode _).
    + intros Ha. apply Henc.
      apply utf8_encode_ascii, file_text_ascii. now apply finalize_Forall.
  - intros E. pose proof (main_outcome_nothing_live fs E) as Hout.
    split; [now apply main_nothing_live|]. rewrite Hout.
    destruct (load_existing fs) as [[|t l]|e]; split; discriminate.
Qed.

Lemma main_decided_by_live_sources_witness :
  @live_tickers ucd_tables listing_world <> []
  /\ Forall is_ascii (@live_tickers ucd_tables listing_world)
  /\ @main ucd_tables listing_world two_line_file
     = File (file_text (@finalize ucd_tables
                          (@live_tickers ucd_tables listing_world)))
  /\ @main ucd_tables listing_world two_line_file
     = @main ucd_tables listing_world NoFile
  /\ @live_tickers ucd_tables offline_world = []
  /\ @main ucd_tables offline_world NoFile = NoFile.
Proof.
  assert (Hne : @live_tickers ucd_tables listing_world <> [])
    by (vm_compute; discriminate).
  assert (Ha : Forall is_ascii (@live_tickers ucd_tables listing_world))
    by (apply is_ascii_check; vm_compute; reflexivity).
  assert (He : @live_tickers ucd_tables offline_world = []) by reflexivity.
  destruct (@main_decided_by_live_sources ucd_tables listing_world
              two_line_file) as (H1 & _).
  destruct (@main_decided_by_live_sources ucd_tables offline_world NoFile)
    as (_ & H3).
  destruct (H1 Hne) as (_ & Hsame & _ & Hascii).
  exact (conj Hne (conj Ha (conj (proj2 (Hascii Ha))
           (conj Hsame (conj He (proj1 (H3 He))))))).
Defined.

(** ** The cap is invisible on shallow values *)

Lemma json_depth_nonneg obj : (0 <= json_depth obj)%Z.
Proof.
  destruct obj; cbn [json_depth]; try lia.
  - induction items as [|a r IH]; cbn [fold_right] in *; lia.
  - induction kvs as [|[k v] r IH]; cbn [fold_right] in *; lia.
Qed.

Lemma json_depth_item items item :
  In item items -> (json_depth item < json_depth (JList items))%Z.
Proof.
  cbn [json_depth]. induction items as [|a r IH]; [contradiction|].
  cbn [fold_right]. intros [->|H]; [lia|]. specialize (IH H). lia.
Qed.

Lemma json_depth_value kvs kv :
  In kv kvs -> (json_depth (snd kv) < json_depth (JDict kvs))%Z.
Proof.
  cbn [json_depth]. induction kvs as [|[k v] r IH]; [contradiction|].
  cbn [fold_right]. intros [E|H]; [subst kv; cbn [snd]; lia|].
  specialize (IH H). lia.
Qed.

Lemma flat_map_ext_in {A B : Type} (f g : A -> list B) l :
  (forall a, In a l -> f a = g a) -> flat_map f l = flat_map g l.
Proof.
  induction l as [|a r IH]; intros H; [reflexivity|].
  cbn [flat_map]. rewrite (H a (or_introl eq_refl)), IH; [reflexivity|].
  intros b Hb. apply H. now right.
Qed.

Section ShallowValues.
Context {ucd : CaseData}.

Lemma extract_depth_shift obj :
  forall d d',
    (d + json_depth obj <= MAX_DEPTH + 1)%Z ->
    (d' + json_depth obj <= MAX_DEPTH + 1)%Z ->
    _extract_tickers_from_json obj d = _extract_tickers_from_json obj d'.
Proof.
  induction obj using json_induction; intros d d' Hd Hd';
    try (simpl; now destruct (d >? MAX_DEPTH)%Z, (d' >? MAX_DEPTH)%Z).
  - pose proof (json_depth_nonneg (JList items)) as H0.
    assert (H1 : (1 <= json_depth (JList items))%Z).
    { cbn [json_depth].
      assert (0 <= fold_right (fun item acc => Z.max (json_depth item) acc)
                              0 items)%Z; [|lia].
      clear. induction items; cbn [fold_right]; lia. }
    rewrite !extract_list by lia.
    apply flat_map_ext_in. intros item Hi.
    rewrite Forall_forall in H. apply (H item Hi).
    + pose proof (json_depth_item _ _ Hi). lia.
    + pose proof (json_depth_item _ _ Hi). lia.
  - assert (H1 : (1 <= json_depth (JDict kvs))%Z).
    { cbn [json_depth].
      assert (0 <= fold_right
                     (fun kv acc =>
                        match kv with (_, val) => Z.max (json_depth val) acc end)
                     0 kvs)%Z; [|lia].
      clear. induction kvs as [|[k v] r IH]; cbn [fold_right]; lia. }
    rewrite !extract_dict by lia. f_equal.
    apply flat_map_ext_in. intros kv Hi.
    rewrite Forall_forall in H. apply (H kv Hi).
    + pose proof (json_depth_value _ _ Hi). lia.
    + pose proof (json_depth_value _ _ Hi). lia.
Qed.

End ShallowValues.

(** X12: on a value of at most 11 nested containers the depth cap changes
    nothing: walking it from any depth that leaves it room gives the same
    list as walking it from depth 0. *)
Theorem extract_shallow_uncapped (ucd : CaseData) (obj : json) (depth : Z) :
  (0 <= depth)%Z -> (depth + json_depth obj <= MAX_DEPTH + 1)%Z ->
  _extract_tickers_from_json obj depth = _extract_tickers_from_json obj 0.
Proof.
  intros H0 H. apply extract_depth_shift; [exact H | lia].
Qed.

Lemma extract_shallow_uncapped_witness :
  (0 <= 8)%Z /\ (8 + json_depth nested_example <= MAX_DEPTH + 1)%Z
  /\ @_extract_tickers_from_json ucd_tables nested_example 8 = [lit "ABCD"].
Proof.
  assert (H0 : (0 <= 8)%Z) by lia.
  assert (H : (8 + json_depth nested_example <= MAX_DEPTH + 1)%Z)
    by (vm_compute; discriminate).
  exact (conj H0 (conj H
           (@extract_shallow_uncapped ucd_tables nested_example 8 H0 H))).
Defined.

(** ** The symbol of a quote link *)

Lemma take_upper_run_split s :
  exists post,
    s = take_upper_run s ++ post
    /\ Forall is_capital (take_upper_run s)
    /\ (forall c r, post = c :: r -> ~ is_capital c).
Proof.
  induction s as [|c r (post & Hs & Hf & Hp)]; cbn [take_upper_run].
  - exists []. repeat split; [constructor | discriminate].
  - destruct (in_range 65%N 90%N c) eqn:E.
    + exists post. cbn [app]. rewrite <- Hs. repeat split.
      * now constructor.
      * exact Hp.
    + exists (c :: r). repeat split; [constructor|].
      intros c' r' [= <- <-]. unfold is_capital. congruence.
Qed.

Lemma search_t_param_sound s :
  forall m,
    search_t_param s = Some m ->
    m <> [] /\ Forall is_capital m
    /\ exists pre post,
        s = pre ++ lit "t=" ++ m ++ post
        /\ (forall c r, post = c :: r -> ~ is_capital c).
Proof.
  induction s as [|c r IH]; intros m; cbn [search_t_param]; [discriminate|].
  cbv zeta.
  destruct r as [|e r'].
  - intros H. destruct (IH m H) as (_ & _ & pre & post & Hs & _).
    destruct pre; discriminate.
  - destruct ((c =? 116) && (e =? 61))%N eqn:E.
    + destruct (take_upper_run r') as [|g gs] eqn:Et.
      * intros H. destruct (IH m H) as (Hne & Hf & pre & post & Hs & Hp).
        repeat split; try assumption.
        exists (c :: pre), post. split; [|exact Hp]. cbn [app]. now rewrite Hs.
      * intros [= <-]. split; [discriminate|].
        destruct (take_upper_run_split r') as (post & Hs & Hf & Hp).
        rewrite Et in Hs, Hf. split; [exact Hf|].
        exists [], post. split; [|exact Hp].
        apply andb_true_iff in E. destruct E as [Ec Ee].
        apply N.eqb_eq in Ec, Ee. subst c e. cbn [app].
        change (lit "t=") with [116%N; 61%N]. cbn [app] in *.
        do 2 f_equal. exact Hs.
    + intros H. destruct (IH m H) as (Hne & Hf & pre & post & Hs & Hp).
      repeat split; try assumption.
      exists (c :: pre), post. split; [|exact Hp]. cbn [app]. now rewrite Hs.
Qed.

Lemma search_t_param_complete pre :
  forall c post,
    is_capital c -> search_t_param (pre ++ lit "t=" ++ c :: post) <> None.
Proof.
  induction pre as [|d pre IH]; intros c post Hc.
  - change (lit "t=") with [116%N; 61%N]. cbn [app search_t_param].
    cbv zeta. change ((116 =? 116) && (61 =? 61))%N with true. cbv iota.
    cbn [take_upper_run]. unfold is_capital in Hc. rewrite Hc. discriminate.
  - cbn [app search_t_param]. cbv zeta.
    specialize (IH c post Hc).
    destruct (match pre ++ lit "t=" ++ c :: post with
              | [] => None
              | e :: r' =>
                if ((d =? 116) && (e =? 61))%N
                then match take_upper_run r' with
                     | [] => None
                     | g :: l => Some (g :: l)
                     end
                else None
              end); [discriminate | exact IH].
Qed.

Lemma no_space_strip s :
  Forall (fun c => cp_isspace c = false) s -> strip s = s.
Proof.
  intros H. unfold strip, rstrip.
  assert (Hl : forall u, Forall (fun c => cp_isspace c = false) u ->
                         lstrip u = u).
  { intros [|c u] Hu; [reflexivity|]. inversion Hu; subst.
    now apply lstrip_fixed. }
  rewrite (Hl s H), (Hl (rev s)) by now apply Forall_rev.
  apply rev_involutive.
Qed.

Lemma capitals_valid m :
  m <> [] -> Forall is_capital m ->
  @is_valid_ticker ucd_tables m = (length m <=? 5).
Proof.
  intros Hne Hm.
  assert (Hstrip : strip m = m).
  { apply no_space_strip. eapply Forall_impl; [|exact Hm].
    intros c Hc. apply in_range_spec in Hc. unfold cp_isspace.
    rewrite !orb_false_iff, !in_range_false, !N.eqb_neq. lia. }
  assert (Hclean : remove_hyphens m = m).
  { unfold remove_hyphens. apply forallb_filter_id. apply forallb_forall.
    intros c Hc. rewrite Forall_forall in Hm. specialize (Hm c Hc).
    apply in_range_spec in Hm. apply negb_true_iff, N.eqb_neq.
    unfold hyphen. lia. }
  assert (Hshape : @valid_shape ucd_tables m <-> length m <= 5).
  { unfold valid_shape. cbv zeta. rewrite Hstrip, Hclean.
    split; [now intros [[_ H] _]|].
    intros Hlen. destruct m as [|c r]; [now elim Hne|].
    split; [cbn [length] in *; lia|].
    rewrite Forall_forall in Hm. repeat split.
    - apply Forall_forall. intros x Hx. specialize (Hm x Hx).
      cbn. unfold is_capital in Hm. now rewrite Hm.
    - apply Forall_forall. intros x Hx. specialize (Hm x Hx).
      apply in_range_spec in Hm. cbn. split; [|reflexivity].
      apply in_range_false. lia.
    - apply Exists_cons_hd. apply (Hm c). now left. }
  destruct (Nat.leb_spec (length m) 5) as [Hle|Hgt].
  - apply is_valid_ticker_shape. now apply Hshape.
  - destruct (@is_valid_ticker ucd_tables m) eqn:E; [|reflexivity].
    apply is_valid_ticker_shape in E. apply Hshape in E. lia.
Qed.

(** X13: the symbol read from a quote link is a run of capitals A to Z that
    follows "t=" in the link and is not followed by another capital; it is
    found whenever "t=" and a capital occur in the link; and the validator
    accepts it exactly when it has at most 5 letters. *)
Theorem search_t_param_spec (s : str) :
  (forall m, search_t_param s = Some m ->
             m <> [] /\ Forall is_capital m
             /\ (exists pre post,
                    s = pre ++ lit "t=" ++ m ++ post
                    /\ (forall c r, post = c :: r -> ~ is_capital c))
             /\ @is_valid_ticker ucd_tables m = (length m <=? 5))
  /\ (forall pre c post,
        s = pre ++ lit "t=" ++ c :: post -> is_capital c ->
        search_t_param s <> None).
Proof.
  split.
  - intros m H. destruct (search_t_param_sound _ H) as (Hne & Hf & Hocc).
    repeat split; try assumption. now apply capitals_valid.
  - intros pre c post -> Hc. now apply search_t_param_complete.
Qed.

Lemma search_t_param_spec_witness :
  search_t_param (lit "quote.ashx?t=AAPL&ty=c&p=d&b=1") = Some (lit "AAPL")
  /\ @is_valid_ticker ucd_tables (lit "AAPL") = true
  /\ search_t_param (lit "quote.ashx?t=GOOGLE") = Some (lit "GOOGLE")
  /\ @is_valid_ticker ucd_tables (lit "GOOGLE") = false.
Proof.
  assert (H1 : search_t_param (lit "quote.ashx?t=AAPL&ty=c&p=d&b=1")
               = Some (lit "AAPL")) by reflexivity.
  assert (H2 : search_t_param (lit "quote.ashx?t=GOOGLE")
               = Some (lit "GOOGLE")) by reflexivity.
  destruct (search_t_param_spec (lit "quote.ashx?t=AAPL&ty=c&p=d&b=1"))
    as (Hs1 & _).
  destruct (search_t_param_spec (lit "quote.ashx?t=GOOGLE")) as (Hs2 & _).
  destruct (Hs1 _ H1) as (_ & _ & _ & Hv1).
  destruct (Hs2 _ H2) as (_ & _ & _ & Hv2).
  exact (conj H1 (conj Hv1 (conj H2 Hv2))).
Defined.

(** ** The row parser *)

(** X14: the row parser returns validated symbols only, by either method,
    and when the marker-class method finds nothing the symbols of the quote
    links come without duplicates. *)
Theorem parse_finviz_page_sound (ucd : CaseData) (page : soup) :
  Forall (fun t => is_valid_ticker t = true) (_parse_finviz_page page)
  /\ (keep_valid_upper (primary_link_texts page) = [] ->
      NoDup (_parse_finviz_page page)).
Proof.
  split; [apply parse_finviz_page_valid|].
  apply parse_finviz_page_secondary_NoDup.
Qed.

Lemma parse_finviz_page_sound_witness :
  @keep_valid_upper ucd_tables (primary_link_texts quote_links_page) = []
  /\ @_parse_finviz_page ucd_tables quote_links_page
     = [lit "AAPL"; lit "MSFT"]
  /\ NoDup (@_parse_finviz_page ucd_tables quote_links_page).
Proof.
  assert (H : @keep_valid_upper ucd_tables
                (primary_link_texts quote_links_page) = []) by reflexivity.
  destruct (@parse_finviz_page_sound ucd_tables quote_links_page)
    as (_ & Hn).
  refine (conj H (conj _ (Hn H))). vm_compute. reflexivity.
Defined.
